(** * PdfRearranger: page list, rotation, crop and export bookkeeping

    A shallow embedding of the React component of [src/PdfRearrange.jsx].
    The component state (the seven [useState] cells) is a record, the
    cropper ref is a function of it, every event handler is a function on
    that record, and the external libraries (pdf-lib, pdfjs, react-cropper,
    fetch) are the fields of one interface, [Collaborators], whose calls may
    throw.  [addPage] and [drawImage] are recorded as the pages of the new
    document.

    Conventions.
    - A JavaScript array is a [list (option A)]: [None] is a hole or
      [undefined].  Reading outside the array gives [undefined]; writing
      outside extends the array with holes, as JavaScript does.
    - A thrown exception or a rejected promise is [None] in the option monad.
    - Stored angles are the integer values of doubles ([Z]): a sum is
      rounded to the nearest double ([round_double], the identity below
      2^53), an overflow gives [NaN], JavaScript's [%] is the truncated
      remainder [Z.rem], and [-0] is identified with [0].  Numbers that are
      not integers (the radians of the export, the zoom level) are real
      numbers; their rounding is not modelled.
    - A synchronous handler runs to completion.  A file upload is also
      given in its two parts, before and after the rendering it awaits, and
      a state is reachable when the interface leads to it with the other
      handlers run in between. *)

From Stdlib Require Import ZArith Reals String Permutation Lia.
From stdpp Require Import base list strings.

Open Scope string_scope.
Open Scope nat_scope.
Open Scope list_scope.

(** ** JavaScript values *)

(** A number that may be [NaN]. *)
Inductive JSNum (A : Type) : Type :=
| NaN
| Num (x : A).
Arguments NaN {A}.
Arguments Num {A} x.

(** [arr[i]]: [undefined] on a hole and outside the array. *)
Definition js_get {A} (arr : list (option A)) (i : nat) : option A :=
  mjoin (arr !! i).

(** [arr[key]] where [key] may be [undefined] or [null]: no such element. *)
Definition js_get_key {A} (arr : list (option A)) (key : option nat) : option A :=
  key ≫= js_get arr.

(** [arr[i] = v]: in range the slot is overwritten, out of range the array
    grows to length [i + 1] and the new slots in between are holes. *)
Definition js_set {A} (arr : list (option A)) (i : nat) (v : A) : list (option A) :=
  if decide (i < length arr) then <[i := Some v]> arr
  else arr ++ replicate (i - length arr) None ++ [Some v].

(** [arr[key] = v] where [key] may be [null]: that assignment creates a
    property named "null" and touches no element. *)
Definition js_set_key {A} (arr : list (option A)) (key : option nat) (v : A)
  : list (option A) :=
  match key with
  | Some i => js_set arr i v
  | None => arr
  end.

(** [arr.splice(start, 1)]: the removed elements and the array left. *)
Definition splice_delete1 {A} (start : nat) (arr : list A) : list A * list A :=
  (take 1 (drop start arr), take start arr ++ drop (S start) arr).

(** [arr.splice(start, 0, item)]: [start] is clamped to the length. *)
Definition splice_insert {A} (start : nat) (item : A) (arr : list A) : list A :=
  take start arr ++ item :: drop start arr.

(** ** Component state *)

(** The document pdf-lib parsed; the component only asks its page count. *)
Record PDFDocument := { getPageCount : nat }.

(** What [PDFDocument.load] resolves with: a document that tells its page
    count, or one on which [getPageCount()] throws (pdf-lib loads some
    malformed files and fails only when their pages are looked up). *)
Inductive LoadedDocument :=
| counted (doc : PDFDocument)
| uncounted.
Coercion counted : PDFDocument >-> LoadedDocument.

(** [Some doc] is read at the type it is expected at. *)
Arguments Some {A} & a.

(** [pdfDoc.getPageCount()] *)
Definition js_getPageCount (pdfDoc : LoadedDocument) : option nat :=
  match pdfDoc with
  | counted doc => Some (getPageCount doc)
  | uncounted => None
  end.

(** An element of [croppedImages]: [null] or a data URL. *)
Inductive CroppedImage :=
| null
| dataUrl (url : string).

Record State := {
  pdfDoc : option LoadedDocument;
  pages : list (option nat);
  pageImages : list (option string);
  selectedPage : option nat;
  rotationAngles : list (option (JSNum Z));
  croppedImages : list (option CroppedImage);
  zoomLevel : R;
}.

(** The values given to [useState]. *)
Definition initial : State :=
  {| pdfDoc := None; pages := []; pageImages := []; selectedPage := None;
     rotationAngles := []; croppedImages := []; zoomLevel := 1%R |}.

Definition setPdfDoc (v : LoadedDocument) (s : State) : State :=
  {| pdfDoc := Some v; pages := pages s; pageImages := pageImages s;
     selectedPage := selectedPage s; rotationAngles := rotationAngles s;
     croppedImages := croppedImages s; zoomLevel := zoomLevel s |}.

Definition setPages (v : list (option nat)) (s : State) : State :=
  {| pdfDoc := pdfDoc s; pages := v; pageImages := pageImages s;
     selectedPage := selectedPage s; rotationAngles := rotationAngles s;
     croppedImages := croppedImages s; zoomLevel := zoomLevel s |}.

Definition setPageImages (v : list (option string)) (s : State) : State :=
  {| pdfDoc := pdfDoc s; pages := pages s; pageImages := v;
     selectedPage := selectedPage s; rotationAngles := rotationAngles s;
     croppedImages := croppedImages s; zoomLevel := zoomLevel s |}.

Definition setSelectedPage (v : nat) (s : State) : State :=
  {| pdfDoc := pdfDoc s; pages := pages s; pageImages := pageImages s;
     selectedPage := Some v; rotationAngles := rotationAngles s;
     croppedImages := croppedImages s; zoomLevel := zoomLevel s |}.

Definition setRotationAngles (v : list (option (JSNum Z))) (s : State) : State :=
  {| pdfDoc := pdfDoc s; pages := pages s; pageImages := pageImages s;
     selectedPage := selectedPage s; rotationAngles := v;
     croppedImages := croppedImages s; zoomLevel := zoomLevel s |}.

Definition setCroppedImages (v : list (option CroppedImage)) (s : State) : State :=
  {| pdfDoc := pdfDoc s; pages := pages s; pageImages := pageImages s;
     selectedPage := selectedPage s; rotationAngles := rotationAngles s;
     croppedImages := v; zoomLevel := zoomLevel s |}.

Definition setZoomLevel (v : R) (s : State) : State :=
  {| pdfDoc := pdfDoc s; pages := pages s; pageImages := pageImages s;
     selectedPage := selectedPage s; rotationAngles := rotationAngles s;
     croppedImages := croppedImages s; zoomLevel := v |}.

(** ** Handlers that call no library *)

(** What react-beautiful-dnd reports on drop; [destination] is [null] when
    the item was dropped outside the list. *)
Record DropResult := { source_index : nat; destination : option nat }.

Definition onDragEnd (result : DropResult) (s : State) : State :=
  match destination result with
  | None => s
  | Some destination_index =>
    let reorderedPages := pages s in
    let '(removed_elements, reorderedPages) :=
      splice_delete1 (source_index result) reorderedPages in
    (* const [removed] = ...: undefined when nothing was removed *)
    let removed := mjoin (head removed_elements) in
    let reorderedPages := splice_insert destination_index removed reorderedPages in
    setPages reorderedPages s
  end.

(** The double nearest to the integer [x], ties to the even significand:
    up to 2^53 every integer is a double; a larger one keeps 53 bits, so
    the doubles around it are [ulp] apart. *)
Definition round_double (x : Z) : Z :=
  let e := (Z.log2 (Z.abs x) - 52)%Z in
  if (e <=? 0)%Z then x
  else
    let ulp := (2 ^ e)%Z in
    let q := (x / ulp)%Z in
    let r := (x mod ulp)%Z in
    if (2 * r <? ulp)%Z then (q * ulp)%Z
    else if (ulp <? 2 * r)%Z then ((q + 1) * ulp)%Z
    else if Z.even q then (q * ulp)%Z
    else ((q + 1) * ulp)%Z.

(** [(old + angle) % 360] on doubles: the sum is rounded, a sum that
    overflows is [Infinity] and [Infinity % 360] is [NaN]; [undefined +
    angle] and [NaN + angle] are [NaN]. *)
Definition js_add_rem360 (old : option (JSNum Z)) (angle : Z) : JSNum Z :=
  match old with
  | Some (Num a) =>
    let sum := round_double (a + angle) in
    if (2 ^ 1024 <=? Z.abs sum)%Z then NaN else Num (Z.rem sum 360)
  | _ => NaN
  end.

Definition rotateSelectedPage (angle : Z) (s : State) : State :=
  match selectedPage s with
  | None => s
  | Some p =>
    let newRotationAngles := rotationAngles s in
    let newRotationAngles :=
      js_set newRotationAngles p (js_add_rem360 (js_get newRotationAngles p) angle) in
    setRotationAngles newRotationAngles s
  end.

Definition zoomIn (s : State) : State := setZoomLevel (zoomLevel s + 0.1)%R s.

Definition zoomOut (s : State) : State := setZoomLevel (zoomLevel s - 0.1)%R s.

(** ** The exported document *)

(** What pdf-lib's [degrees] and [radians] build. *)
Inductive Rotation :=
| degrees (angle : JSNum R)
| radians (angle : JSNum R).

(** A value given as [rotate]: pdf-lib documents a [Rotation]; a caller can
    just as well pass a bare number. *)
Inductive RotateOption :=
| rotate_number (n : JSNum R)
| rotate_rotation (rotation : Rotation).

(** The options object of [page.drawImage]. *)
Record DrawImageOptions := {
  opt_x : Z;
  opt_y : Z;
  opt_width : Z;
  opt_height : Z;
  opt_rotate : RotateOption;
}.

(** A page of the new document: the size given to [addPage] and the
    [drawImage] calls that returned on it. *)
Record PDFPage (Image : Type) := {
  page_size : Z * Z;
  page_content : list (Image * DrawImageOptions);
}.
Arguments page_size {Image} _.
Arguments page_content {Image} _.

(** [angle * (Math.PI / 180)]; [undefined * x] and [NaN * x] are [NaN]. *)
Definition js_mul_pi_180 (angle : option (JSNum Z)) : JSNum R :=
  match angle with
  | Some (Num a) => Num (IZR a * (PI / 180))%R
  | _ => NaN
  end.

(** [cropped || original]: the left operand when it is truthy, that is a
    non-empty string; [null], [undefined] and the empty string are falsy. *)
Definition js_or (cropped : option CroppedImage) (original : option string)
  : option string :=
  match cropped with
  | Some (dataUrl url) => if decide (url = "") then original else Some url
  | _ => original
  end.

(** ** Collaborators *)

(** The libraries the component delegates to.  [None] is a thrown exception
    or a rejected promise. *)
Class Collaborators := {
  File : Type;
  ArrayBuffer : Type;
  PDFJSDocument : Type;
  PDFImage : Type;
  CropBox : Type;
  (* file.arrayBuffer() *)
  file_arrayBuffer : File → option ArrayBuffer;
  (* pdf-lib: PDFDocument.load(arrayBuffer) *)
  PDFDocument_load : ArrayBuffer → option LoadedDocument;
  (* pdfjs: getDocument({ data }).promise *)
  pdfjs_getDocument : ArrayBuffer → option PDFJSDocument;
  (* pdfjs: getPage(i), its viewport at scale 1.5, render on a fresh canvas,
     canvas.toDataURL() *)
  pdfjs_renderPage : PDFJSDocument → nat → option string;
  (* fetch(imageUrl).then(res => res.arrayBuffer()) *)
  fetch_arrayBuffer : option string → option ArrayBuffer;
  (* pdf-lib: newPdfDoc.embedPng(imageBytes), and the image's size *)
  embedPng : ArrayBuffer → option PDFImage;
  image_width : PDFImage → Z;
  image_height : PDFImage → Z;
  (* pdf-lib: newPdfDoc.addPage([width, height]) *)
  newPdfDoc_addPage : Z * Z → option unit;
  (* pdf-lib: page.drawImage(image, options), which checks its options *)
  page_drawImage : PDFImage → DrawImageOptions → option unit;
  (* pdf-lib: newPdfDoc.save() *)
  PDFDocument_save : list (PDFPage PDFImage) → option ArrayBuffer;
  (* react-cropper: getCroppedCanvas().toDataURL() of a cropper showing
     [src] with the crop box the user has drawn *)
  cropper_toDataURL : option string → CropBox → option string;
}.

Section Handlers.
Context `{Collaborators}.

(** What a handler does besides updating the state. *)
Inductive Effect :=
| ConsoleError (message : string)
| Download (filename : string) (content : ArrayBuffer).

(** *** Loading *)

(** The body of [for (let i = 1; i <= pageCount; i++)]; [n] counts the
    iterations left. *)
Fixpoint renderPdfPages_loop (pdf : PDFJSDocument) (n i : nat)
    (images : list (option string)) : option (list (option string)) :=
  match n with
  | 0 => Some images
  | S n' =>
    url ← pdfjs_renderPage pdf i;
    renderPdfPages_loop pdf n' (S i) (images ++ [Some url])
  end.

Definition renderPdfPages (arrayBuffer : ArrayBuffer) (pageCount : nat)
    (s : State) : State * list Effect :=
  match pdf ← pdfjs_getDocument arrayBuffer;
        renderPdfPages_loop pdf pageCount 1 [] with
  | Some images => (setPageImages images s, [])
  | None => (s, [ConsoleError "Error rendering PDF pages:"])
  end.

(** [event] is [event.target.files[0]], [undefined] when no file was chosen. *)
Definition handleFileUpload (event : option File) (s : State)
  : State * list Effect :=
  match event with
  | None => (s, [])
  | Some file =>
    match arrayBuffer ← file_arrayBuffer file;
          pdfDoc ← PDFDocument_load arrayBuffer;
          Some (arrayBuffer, pdfDoc) with
    | Some (arrayBuffer, pdfDoc) =>
      let s := setPdfDoc pdfDoc s in
      match js_getPageCount pdfDoc with
      | Some pageCount =>
        let s := setPages (Some <$> seq 0 pageCount) s in
        let s := setRotationAngles (replicate pageCount (Some (Num 0%Z))) s in
        let s := setCroppedImages (replicate pageCount (Some null)) s in
        renderPdfPages arrayBuffer pageCount s
      | None => (s, [ConsoleError "Error loading PDF:"])
      end
    | None => (s, [ConsoleError "Error loading PDF:"])
    end
  end.

(** The same handler up to the rendering it awaits (lines 19 to 28 and the
    call of [renderPdfPages]): the state it has set, what it has logged and
    the rendering it has started, if it got that far.  The interface is
    live while that rendering runs. *)
Definition handleFileUpload_until_render (event : option File) (s : State)
  : State * list Effect * option (ArrayBuffer * nat) :=
  match event with
  | None => (s, [], None)
  | Some file =>
    match arrayBuffer ← file_arrayBuffer file;
          pdfDoc ← PDFDocument_load arrayBuffer;
          Some (arrayBuffer, pdfDoc) with
    | Some (arrayBuffer, pdfDoc) =>
      let s := setPdfDoc pdfDoc s in
      match js_getPageCount pdfDoc with
      | Some pageCount =>
        let s := setPages (Some <$> seq 0 pageCount) s in
        let s := setRotationAngles (replicate pageCount (Some (Num 0%Z))) s in
        let s := setCroppedImages (replicate pageCount (Some null)) s in
        (s, [], Some (arrayBuffer, pageCount))
      | None => (s, [ConsoleError "Error loading PDF:"], None)
      end
    | None => (s, [ConsoleError "Error loading PDF:"], None)
    end
  end.

(** *** Export *)

(** The body of [for (let i = 0; i < pages.length; i++)]; [n] counts the
    iterations left and [newPdfDoc] is the list of pages added so far. *)
Fixpoint handleRearrange_loop (s : State) (n i : nat)
    (newPdfDoc : list (PDFPage PDFImage)) : option (list (PDFPage PDFImage)) :=
  match n with
  | 0 => Some newPdfDoc
  | S n' =>
    let pageIndex := js_get (pages s) i in
    let imageUrl :=
      js_or (js_get_key (croppedImages s) pageIndex)
            (js_get_key (pageImages s) pageIndex) in
    imageBytes ← fetch_arrayBuffer imageUrl;
    image ← embedPng imageBytes;
    let '(width, height) := (image_width image, image_height image) in
    _ ← newPdfDoc_addPage (width, height);
    let options :=
      {| opt_x := 0; opt_y := 0; opt_width := width; opt_height := height;
         opt_rotate :=
           rotate_number
             (js_mul_pi_180 (js_get_key (rotationAngles s) pageIndex)) |} in
    _ ← page_drawImage image options;
    let page :=
      {| page_size := (width, height); page_content := [(image, options)] |} in
    handleRearrange_loop s n' (S i) (newPdfDoc ++ [page])
  end.

(** Creating the blob, the object URL and the clicked link is the one
    [Download] effect. *)
Definition handleRearrange (s : State) : list Effect :=
  match pdfDoc s with
  | None => []
  | Some _ =>
    match newPdfDoc ← handleRearrange_loop s (length (pages s)) 0 [];
          PDFDocument_save newPdfDoc with
    | Some pdfBytes => [Download "rearranged.pdf" pdfBytes]
    | None => [ConsoleError "Error creating PDF:"]
    end
  end.

(** *** Crop *)

(** [cropperRef.current]: the [Cropper] element is rendered only when
    [selectedPage !== null], with [src = pageImages[selectedPage]]; without
    it the ref holds [null].  A mounted cropper is identified by its [src]. *)
Definition cropperRef_current (s : State) : option (option string) :=
  p ← selectedPage s; Some (js_get (pageImages s) p).

(** [None]: an exception left the handler before any state was set. *)
Definition handleCrop (box : CropBox) (s : State) : option State :=
  cropper ← cropperRef_current s;
  croppedDataUrl ← cropper_toDataURL cropper box;
  let newCroppedImages :=
    js_set_key (croppedImages s) (selectedPage s) (dataUrl croppedDataUrl) in
  let s' := setCroppedImages newCroppedImages s in
  let newPageImages := js_set_key (pageImages s) (selectedPage s) croppedDataUrl in
  Some (setPageImages newPageImages s').

(** *** The interface as a transition system *)

Inductive Action :=
| FileUpload (event : option File)
| FileUploadStarts (event : option File)
| RenderSettles (arrayBuffer : ArrayBuffer) (pageCount : nat)
| Rearrange
| DragEnd (result : DropResult)
| SelectPage (pageIndex : nat)
| Rotate (angle : Z)
| Crop (box : CropBox)
| ZoomIn
| ZoomOut.

(** The state once the handler of an action has completed.  [FileUpload]
    is an upload during which nothing else happens; [FileUploadStarts] is
    its part before the rendering and [RenderSettles] the end of a rendering
    started earlier, with its [setPageImages] or its logged error. *)
Definition step (a : Action) (s : State) : State :=
  match a with
  | FileUpload event => (handleFileUpload event s).1
  | FileUploadStarts event => (handleFileUpload_until_render event s).1.1
  | RenderSettles arrayBuffer pageCount =>
    (renderPdfPages arrayBuffer pageCount s).1
  | Rearrange => s
  | DragEnd result => onDragEnd result s
  | SelectPage pageIndex => setSelectedPage pageIndex s
  | Rotate angle => rotateSelectedPage angle s
  | Crop box => default s (handleCrop box s)
  | ZoomIn => zoomIn s
  | ZoomOut => zoomOut s
  end.

Definition run (actions : list Action) (s : State) : State :=
  foldl (λ s a, step a s) s actions.

(** What the rendered interface lets the user do: the export button is
    disabled without a document, an entry can be clicked or dragged only if
    it is in the list, and the rotate (by 90 or -90), crop and zoom buttons
    exist only while a page is selected.  The end of a rendering is not the
    user's doing. *)
Definition enabled (s : State) (a : Action) : Prop :=
  match a with
  | FileUpload _ | FileUploadStarts _ => True
  | RenderSettles _ _ => False
  | Rearrange => pdfDoc s ≠ None
  | DragEnd result =>
    source_index result < length (pages s) ∧
    ∀ d, destination result = Some d → d < length (pages s)
  | SelectPage pageIndex => Some pageIndex ∈ pages s
  | Rotate angle => selectedPage s ≠ None ∧ (angle = 90 ∨ angle = -90)%Z
  | Crop _ | ZoomIn | ZoomOut => selectedPage s ≠ None
  end.

(** The renderings an action leaves running. *)
Definition rendering_started (a : Action) (s : State)
  : list (ArrayBuffer * nat) :=
  match a with
  | FileUploadStarts event =>
    option_list (handleFileUpload_until_render event s).2
  | _ => []
  end.

(** The states the interface leads to, with the renderings still running:
    the user acts, and a rendering that was started settles at any later
    moment. *)
Inductive reachable_rendering : list (ArrayBuffer * nat) → State → Prop :=
| reachable_initial : reachable_rendering [] initial
| reachable_step rendering s a :
    reachable_rendering rendering s →
    enabled s a →
    reachable_rendering (rendering_started a s ++ rendering) (step a s)
| reachable_settles rendering1 arrayBuffer pageCount rendering2 s :
    reachable_rendering (rendering1 ++ (arrayBuffer, pageCount) :: rendering2) s →
    reachable_rendering (rendering1 ++ rendering2)
                        (step (RenderSettles arrayBuffer pageCount) s).

Definition reachable (s : State) : Prop :=
  ∃ rendering, reachable_rendering rendering s.

(** The actions that are a load or a part of one. *)
Definition is_upload (a : Action) : bool :=
  match a with
  | FileUpload _ | FileUploadStarts _ | RenderSettles _ _ => true
  | _ => false
  end.

(** A data URL is held by the session when it is an element of the raster
    cache or of the crop overrides. *)
Definition holds_raster (s : State) (url : string) : Prop :=
  ∃ q, js_get (pageImages s) q = Some url ∨
       js_get (croppedImages s) q = Some (dataUrl url).

(** The raster the export takes for [pageIndex] can be fetched and embedded. *)
Definition raster_readable (s : State) (pageIndex : option nat) : Prop :=
  is_Some
    (fetch_arrayBuffer
       (js_or (js_get_key (croppedImages s) pageIndex)
              (js_get_key (pageImages s) pageIndex)) ≫= embedPng).

(** pdf-lib's [drawImage] asserts that [rotate] is a [Rotation] or
    undefined, and throws a [TypeError] on a number. *)
Definition drawImage_rejects_number : Prop :=
  ∀ image options n,
    opt_rotate options = rotate_number n →
    page_drawImage image options = None.

(** One iteration of the export loop as a function of the identifier it
    reads at its position: the page it adds, or [None] when the fetch, the
    embedding, [addPage] or [drawImage] throws. *)
Definition exported_page (s : State) (pageIndex : option nat)
  : option (PDFPage PDFImage) :=
  let imageUrl :=
    js_or (js_get_key (croppedImages s) pageIndex)
          (js_get_key (pageImages s) pageIndex) in
  imageBytes ← fetch_arrayBuffer imageUrl;
  image ← embedPng imageBytes;
  let '(width, height) := (image_width image, image_height image) in
  _ ← newPdfDoc_addPage (width, height);
  let options :=
    {| opt_x := 0; opt_y := 0; opt_width := width; opt_height := height;
       opt_rotate :=
         rotate_number
           (js_mul_pi_180 (js_get_key (rotationAngles s) pageIndex)) |} in
  _ ← page_drawImage image options;
  Some {| page_size := (width, height); page_content := [(image, options)] |}.

End Handlers.

(** The angles the two rotate buttons can produce. *)
Definition quarter_turn (a : Z) : Prop :=
  (-360 < a < 360)%Z ∧ (a mod 90 = 0)%Z.

Definition quarter_turns (s : State) : Prop :=
  ∀ i a, js_get (rotationAngles s) i = Some (Num a) → quarter_turn a.

(** The page list and the angles fit a page count [n]: the page list is a
    permutation of the identifiers below [n] and each of them has a number
    for its angle.  Without a document [n] is 0, every array is empty and
    nothing is selected; with a document that told its page count, [n] is
    that count. *)
Definition fits_document (s : State) : Prop :=
  ∃ n,
    pages s ≡ₚ Some <$> seq 0 n ∧
    (∀ i, i < n → ∃ a, js_get (rotationAngles s) i = Some (Num a)) ∧
    match pdfDoc s with
    | None =>
      n = 0 ∧ pageImages s = [] ∧ selectedPage s = None ∧
      rotationAngles s = [] ∧ croppedImages s = []
    | Some (counted doc) => n = getPageCount doc
    | Some uncounted => True
    end.

(** ** A concrete set of collaborators

    Test doubles used to run the handlers on explicit inputs.  A file is a
    string: it parses when it starts with "%PDF" and has one page for every
    character after that header, except that a file starting with "%PDF?"
    loads and then cannot tell its page count, and a file starting with
    "%PDF~" is one that pdfjs cannot open; the page drawn for character [c]
    is the data URL "data:c", except that the page for "!" fails to render.
    Cropping [url] with the box [b] gives "crop:b:url".  Fetching a
    URL gives the URL itself, and it embeds when it starts with "data:" or
    "crop:".  [drawImage] checks [rotate] as pdf-lib does. *)
Module Demo.

Definition load (arrayBuffer : string) : option LoadedDocument :=
  if String.prefix "%PDF?" arrayBuffer then Some uncounted
  else if String.prefix "%PDF" arrayBuffer
  then Some {| getPageCount := String.length arrayBuffer - 4 |}
  else None.

Definition getDocument (arrayBuffer : string) : option string :=
  if String.prefix "%PDF~" arrayBuffer then None
  else if String.prefix "%PDF" arrayBuffer then Some arrayBuffer
  else None.

Definition renderPage (pdf : string) (i : nat) : option string :=
  match String.get (3 + i) pdf with
  | Some c =>
    if Ascii.eqb c (Ascii.ascii_of_nat 33) then None else Some ("data:" +:+ String c "")
  | None => None
  end.

Definition embed (imageBytes : string) : option string :=
  if String.prefix "data:" imageBytes || String.prefix "crop:" imageBytes
  then Some imageBytes
  else None.

Definition toDataURL (src : option string) (box : string) : option string :=
  match src with
  | Some url => Some ("crop:" +:+ box +:+ ":" +:+ url)
  | None => None
  end.

Definition drawImage (image : string) (options : DrawImageOptions)
  : option unit :=
  match opt_rotate options with
  | rotate_number _ => None
  | rotate_rotation _ => Some ()
  end.

Definition collaborators : Collaborators :=
  {| File := string;
     ArrayBuffer := string;
     PDFJSDocument := string;
     PDFImage := string;
     CropBox := string;
     file_arrayBuffer := Some;
     PDFDocument_load := load;
     pdfjs_getDocument := getDocument;
     pdfjs_renderPage := renderPage;
     fetch_arrayBuffer := λ imageUrl, imageUrl;
     embedPng := embed;
     image_width := λ image, Z.of_nat (String.length image);
     image_height := λ image, (2 * Z.of_nat (String.length image))%Z;
     newPdfDoc_addPage := λ size, Some ();
     page_drawImage := drawImage;
     PDFDocument_save := λ newPdfDoc, Some "%PDF";
     cropper_toDataURL := toDataURL |}.

#[local] Existing Instance collaborators.

(** One page at angle 0, selected. *)
Definition one_page : State :=
  {| pdfDoc := Some {| getPageCount := 1 |};
     pages := [Some 0];
     pageImages := [Some "data:a"];
     selectedPage := Some 0;
     rotationAngles := [Some (Num 0%Z)];
     croppedImages := [Some null];
     zoomLevel := 1%R |}.

(** Three pages, the last one moved to the front, page 0 turned by 90 and
    page 1 cropped. *)
Definition three_pages : State :=
  {| pdfDoc := Some {| getPageCount := 3 |};
     pages := [Some 2; Some 0; Some 1];
     pageImages := [Some "data:a"; Some "crop:x:data:b"; Some "data:c"];
     selectedPage := Some 1;
     rotationAngles := [Some (Num 90%Z); Some (Num 0%Z); Some (Num 0%Z)];
     croppedImages := [Some null; Some (dataUrl "crop:x:data:b"); Some null];
     zoomLevel := 1%R |}.

(** As [three_pages], with nothing rendered for page 1. *)
Definition missing_raster : State :=
  {| pdfDoc := Some {| getPageCount := 3 |};
     pages := [Some 2; Some 0; Some 1];
     pageImages := [Some "data:a"; None; Some "data:c"];
     selectedPage := None;
     rotationAngles := [Some (Num 0%Z); Some (Num 0%Z); Some (Num 0%Z)];
     croppedImages := [Some null; Some null; Some null];
     zoomLevel := 1%R |}.

(** A session that loads a one-page file, selects its page and presses
    "Rotate -90". *)
Definition turned_back : State :=
  run [FileUpload (Some "%PDFa"); SelectPage 0; Rotate (-90)] initial.

End Demo.

(** ** Arrays *)

Section Arrays.
Context {A : Type}.
Implicit Types (arr : list (option A)) (i j : nat) (v : A).

Lemma js_get_lookup arr i x : arr !! i = Some x → js_get arr i = x.
Proof. unfold js_get. by intros ->. Qed.

Lemma js_get_ge arr i : length arr ≤ i → js_get arr i = None.
Proof. unfold js_get. intros Hi. by rewrite lookup_ge_None_2. Qed.

Lemma length_js_set arr i v : length (js_set arr i v) = max (length arr) (S i).
Proof.
  unfold js_set. case_decide.
  - rewrite length_insert. lia.
  - rewrite !length_app, length_replicate. simpl. lia.
Qed.

Lemma js_get_set_eq arr i v : js_get (js_set arr i v) i = Some v.
Proof.
  unfold js_get, js_set. case_decide.
  - by rewrite list_lookup_insert_eq.
  - rewrite lookup_app_r by lia.
    rewrite lookup_app_r by (rewrite length_replicate; lia).
    rewrite length_replicate.
    by replace (i - length arr - (i - length arr)) with 0 by lia.
Qed.

Lemma js_get_set_ne arr i j v : i ≠ j → js_get (js_set arr i v) j = js_get arr j.
Proof.
  intros Hij. unfold js_get, js_set. case_decide.
  - by rewrite list_lookup_insert_ne.
  - destruct (decide (j < length arr)) as [Hj|Hj].
    + by rewrite lookup_app_l.
    + rewrite (lookup_ge_None_2 arr j) by lia.
      rewrite lookup_app_r by lia.
      destruct (decide (j - length arr < i - length arr)) as [Hlt|Hge].
      * rewrite lookup_app_l by (by rewrite length_replicate).
        by rewrite lookup_replicate_2.
      * rewrite lookup_app_r by (rewrite length_replicate; lia).
        rewrite length_replicate.
        rewrite lookup_ge_None_2; [done|]. simpl. lia.
Qed.

End Arrays.

Section Splice.
Context {A : Type}.
Implicit Types (l : list A) (x : A) (i k : nat).

Lemma splice_delete1_lookup l i x :
  l !! i = Some x → splice_delete1 i l = ([x], delete i l).
Proof.
  intros Hi. unfold splice_delete1.
  rewrite (drop_S l x i Hi), delete_take_drop. simpl. by rewrite take_0.
Qed.

Lemma splice_delete1_ge l i : length l ≤ i → splice_delete1 i l = ([], l).
Proof.
  intros Hi. unfold splice_delete1.
  rewrite (drop_ge l i), (drop_ge l (S i)), (take_ge l i) by lia.
  simpl. by rewrite app_nil_r.
Qed.

Lemma length_splice_insert l i x : length (splice_insert i x l) = S (length l).
Proof.
  unfold splice_insert. rewrite length_app. simpl.
  rewrite length_take, length_drop. lia.
Qed.

Lemma splice_insert_Permutation l i x : splice_insert i x l ≡ₚ x :: l.
Proof.
  unfold splice_insert. rewrite <- Permutation_middle. by rewrite take_drop.
Qed.

Lemma lookup_splice_insert_lt l i x k :
  k < i → i ≤ length l → splice_insert i x l !! k = l !! k.
Proof.
  intros Hk Hi. unfold splice_insert.
  rewrite lookup_app_l by (rewrite length_take; lia).
  by rewrite lookup_take_lt.
Qed.

Lemma lookup_splice_insert_eq l i x :
  i ≤ length l → splice_insert i x l !! i = Some x.
Proof.
  intros Hi. unfold splice_insert.
  apply list_lookup_middle. rewrite length_take. lia.
Qed.

Lemma lookup_splice_insert_gt l i x k :
  i < k → i ≤ length l → splice_insert i x l !! k = l !! (k - 1).
Proof.
  intros Hk Hi. unfold splice_insert.
  rewrite lookup_app_r by (rewrite length_take; lia).
  rewrite length_take, Nat.min_l by lia.
  destruct (k - i) as [|d] eqn:Hd; [lia|]. simpl.
  rewrite lookup_drop. f_equal. lia.
Qed.

Lemma delete_splice_insert l i x :
  i ≤ length l → delete i (splice_insert i x l) = l.
Proof.
  intros Hi. unfold splice_insert. rewrite delete_take_drop.
  rewrite take_app_length' by (rewrite length_take; lia).
  replace (S i) with (length (take i l) + 1) by (rewrite length_take; lia).
  rewrite drop_app_add'; [|done]. simpl. rewrite drop_0. apply take_drop.
Qed.

End Splice.

(** ** Reordering *)

Lemma onDragEnd_cancelled (s : State) (src : nat) :
  onDragEnd {| source_index := src; destination := None |} s = s.
Proof. reflexivity. Qed.

Lemma onDragEnd_pages (s : State) (src dst : nat) (entry : option nat) :
  pages s !! src = Some entry →
  onDragEnd {| source_index := src; destination := Some dst |} s
  = setPages (splice_insert dst entry (delete src (pages s))) s.
Proof.
  intros Hsrc. unfold onDragEnd. cbn [destination source_index].
  by rewrite (splice_delete1_lookup _ _ _ Hsrc).
Qed.

(** An index outside the list removes nothing and inserts [undefined]. *)
Lemma onDragEnd_source_outside (s : State) (src dst : nat) :
  length (pages s) ≤ src →
  onDragEnd {| source_index := src; destination := Some dst |} s
  = setPages (splice_insert dst None (pages s)) s.
Proof.
  intros Hsrc. unfold onDragEnd. cbn [destination source_index].
  by rewrite (splice_delete1_ge _ _ Hsrc).
Qed.

(** C4. [onDragEnd] with a cancelled drag (no destination) leaves the state
    as it is.  With valid positions it takes the entry at [fromPosition] out
    of the page list and puts it back at [toPosition]: the entries between
    the two positions shift by one, every other entry stays, the result is a
    permutation of the same identifiers with the same length, and nothing
    but the page list changes. *)
Theorem onDragEnd_moves_entry (s : State) :
  (∀ src, onDragEnd {| source_index := src; destination := None |} s = s) ∧
  (∀ fromPosition toPosition,
     fromPosition < length (pages s) →
     toPosition < length (pages s) →
     let moved :=
       onDragEnd {| source_index := fromPosition;
                    destination := Some toPosition |} s in
     pages moved !! toPosition = pages s !! fromPosition ∧
     delete toPosition (pages moved) = delete fromPosition (pages s) ∧
     (∀ k, k < fromPosition → k < toPosition →
           pages moved !! k = pages s !! k) ∧
     (∀ k, fromPosition ≤ k < toPosition →
           pages moved !! k = pages s !! S k) ∧
     (∀ k, toPosition < k ≤ fromPosition →
           pages moved !! k = pages s !! (k - 1)) ∧
     (∀ k, fromPosition < k → toPosition < k →
           pages moved !! k = pages s !! k) ∧
     pages moved ≡ₚ pages s ∧
     length (pages moved) = length (pages s) ∧
     moved = setPages (pages moved) s).
Proof.
  split; [apply onDragEnd_cancelled|].
  intros src dst Hsrc Hdst moved.
  destruct (lookup_lt_is_Some_2 _ _ Hsrc) as [entry Hentry].
  subst moved. rewrite (onDragEnd_pages _ _ _ _ Hentry). simpl.
  assert (Hlen : dst ≤ length (delete src (pages s))).
  { rewrite length_delete by eauto. lia. }
  repeat split.
  - by rewrite lookup_splice_insert_eq.
  - by apply delete_splice_insert.
  - intros k Hk1 Hk2.
    rewrite lookup_splice_insert_lt by done.
    by apply list_lookup_delete_lt.
  - intros k [Hk1 Hk2].
    rewrite lookup_splice_insert_lt by done.
    by apply list_lookup_delete_ge.
  - intros k [Hk1 Hk2].
    rewrite lookup_splice_insert_gt by done.
    apply list_lookup_delete_lt. lia.
  - intros k Hk1 Hk2.
    rewrite lookup_splice_insert_gt by done.
    rewrite list_lookup_delete_ge by lia. f_equal. lia.
  - rewrite splice_insert_Permutation.
    symmetry. by apply delete_Permutation.
  - rewrite length_splice_insert, length_delete by eauto. lia.
Qed.

Lemma onDragEnd_moves_entry_witness :
  2 < length (pages Demo.three_pages) ∧
  0 < length (pages Demo.three_pages) ∧
  pages (onDragEnd {| source_index := 2; destination := Some 0 |}
                   Demo.three_pages)
  ≡ₚ pages Demo.three_pages.
Proof.
  assert (H2 : 2 < length (pages Demo.three_pages)) by (simpl; lia).
  assert (H0 : 0 < length (pages Demo.three_pages)) by (simpl; lia).
  split; [exact H2|]. split; [exact H0|].
  destruct (onDragEnd_moves_entry Demo.three_pages) as [_ Hmove].
  exact (proj1 (proj2 (proj2 (proj2 (proj2 (proj2 (proj2 (Hmove 2 0 H2 H0)))))))).
Defined.

(** ** Rotation *)

Lemma rotateSelectedPage_unselected (s : State) (delta : Z) :
  selectedPage s = None → rotateSelectedPage delta s = s.
Proof. unfold rotateSelectedPage. by intros ->. Qed.

Lemma rotateSelectedPage_selected (s : State) (delta : Z) (p : nat) :
  selectedPage s = Some p →
  rotateSelectedPage delta s
  = setRotationAngles
      (js_set (rotationAngles s) p
              (js_add_rem360 (js_get (rotationAngles s) p) delta)) s.
Proof. unfold rotateSelectedPage. by intros ->. Qed.

(** Below 2^53 every integer is a double and the sum is exact. *)
Lemma round_double_exact (x : Z) : (Z.abs x < 2 ^ 53)%Z → round_double x = x.
Proof.
  intros Hx. unfold round_double.
  destruct (decide (x = 0%Z)) as [->|Hne]; [done|].
  assert (Z.log2 (Z.abs x) < 53)%Z by (apply Z.log2_lt_pow2; lia).
  rewrite (proj2 (Z.leb_le _ _)); [done|lia].
Qed.

Lemma js_add_rem360_exact (a delta : Z) :
  (Z.abs (a + delta) < 2 ^ 53)%Z →
  js_add_rem360 (Some (Num a)) delta = Num (Z.rem (a + delta) 360).
Proof.
  intros Hsum. unfold js_add_rem360. rewrite (round_double_exact _ Hsum).
  rewrite (proj2 (Z.leb_gt _ _)); [done|].
  eapply Z.lt_trans; [exact Hsum|]. by apply Z.pow_lt_mono_r.
Qed.

(** Beyond 2^53 the sum is rounded before the remainder is taken: 90 +
    (2^53 - 1) is not a double, the nearest one is 2^53 + 88, and the angle
    stored is 120 where the exact sum would give 121. *)
Lemma js_add_rem360_rounds :
  js_add_rem360 (Some (Num 90%Z)) (2 ^ 53 - 1) = Num 120%Z ∧
  Z.rem (90 + (2 ^ 53 - 1)) 360 = 121%Z.
Proof. split; by vm_compute. Qed.

Lemma rotateSelectedPage_at (s : State) (delta : Z) (p : nat) (a : Z) :
  selectedPage s = Some p →
  js_get (rotationAngles s) p = Some (Num a) →
  (Z.abs (a + delta) < 2 ^ 53)%Z →
  selectedPage (rotateSelectedPage delta s) = Some p ∧
  js_get (rotationAngles (rotateSelectedPage delta s)) p
  = Some (Num (Z.rem (a + delta) 360)).
Proof.
  intros Hp Ha Hsum. rewrite (rotateSelectedPage_selected _ _ _ Hp). simpl.
  split; [done|]. by rewrite js_get_set_eq, Ha, js_add_rem360_exact.
Qed.

Lemma rotateSelectedPage_other (s : State) (delta : Z) (p q : nat) :
  selectedPage s = Some p → q ≠ p →
  js_get (rotationAngles (rotateSelectedPage delta s)) q
  = js_get (rotationAngles s) q.
Proof.
  intros Hp Hq. rewrite (rotateSelectedPage_selected _ _ _ Hp). simpl.
  by apply js_get_set_ne.
Qed.

(** A selection that is not a slot of [rotationAngles] (it can be left over
    from a longer document) gets [NaN], and the array grows. *)
Lemma rotateSelectedPage_outside (s : State) (delta : Z) (p : nat) :
  selectedPage s = Some p →
  length (rotationAngles s) ≤ p →
  js_get (rotationAngles (rotateSelectedPage delta s)) p = Some NaN ∧
  length (rotationAngles (rotateSelectedPage delta s)) = S p.
Proof.
  intros Hp Hlen. rewrite (rotateSelectedPage_selected _ _ _ Hp). simpl.
  rewrite js_get_set_eq, length_js_set, (js_get_ge _ _ Hlen). simpl.
  split; [done|lia].
Qed.

Lemma rem_360_congruent (x : Z) : (Z.rem x 360 mod 360 = x mod 360)%Z.
Proof. Z.to_euclidean_division_equations. lia. Qed.

Lemma rem_360_nonneg (x : Z) : (0 ≤ x → Z.rem x 360 = x mod 360)%Z.
Proof. intros Hx. Z.to_euclidean_division_equations. lia. Qed.

Lemma rem_360_neg (x : Z) :
  (x < 0 → Z.rem x 360 ≠ 0 → Z.rem x 360 = x mod 360 - 360)%Z.
Proof. intros Hx Hr. Z.to_euclidean_division_equations. lia. Qed.

(** C5, as the code has it.  Without a selection [rotateSelectedPage] leaves
    the state as it is.  With page [p] selected at the stored angle [a], and
    [a + delta] below 2^53 in magnitude so that the sum of the two doubles
    is exact, it stores the remainder of [a + delta] by 360 that keeps the
    sign of [a + delta] (JavaScript's [%]): this is congruent to [a + delta]
    modulo 360, equal to [(a + delta) mod 360] when [a + delta] is not
    negative and 360 less than it when [a + delta] is negative and not a
    multiple of 360.  No other page's angle and no other part of the state
    changes. *)
Theorem rotateSelectedPage_angle (s : State) (delta : Z) :
  (selectedPage s = None → rotateSelectedPage delta s = s) ∧
  (∀ p a,
     selectedPage s = Some p →
     js_get (rotationAngles s) p = Some (Num a) →
     (Z.abs (a + delta) < 2 ^ 53)%Z →
     let s' := rotateSelectedPage delta s in
     js_get (rotationAngles s') p = Some (Num (Z.rem (a + delta) 360)) ∧
     (Z.rem (a + delta) 360 mod 360 = (a + delta) mod 360)%Z ∧
     (0 ≤ a + delta → Z.rem (a + delta) 360 = (a + delta) mod 360)%Z ∧
     (a + delta < 0 → Z.rem (a + delta) 360 ≠ 0 →
      Z.rem (a + delta) 360 = (a + delta) mod 360 - 360)%Z ∧
     (∀ q, q ≠ p →
           js_get (rotationAngles s') q = js_get (rotationAngles s) q) ∧
     s' = setRotationAngles (rotationAngles s') s).
Proof.
  split; [apply rotateSelectedPage_unselected|].
  intros p a Hp Ha Hsum s'. subst s'.
  split; [by apply (rotateSelectedPage_at s delta p a)|].
  split; [apply rem_360_congruent|].
  split; [apply rem_360_nonneg|].
  split; [apply rem_360_neg|].
  split; [intros q Hq; by apply (rotateSelectedPage_other s delta p q)|].
  by rewrite (rotateSelectedPage_selected _ _ _ Hp).
Qed.

Lemma rotateSelectedPage_angle_witness :
  selectedPage Demo.three_pages = Some 1 ∧
  js_get (rotationAngles Demo.three_pages) 1 = Some (Num 0%Z) ∧
  (Z.abs (0 + 450) < 2 ^ 53)%Z ∧
  js_get (rotationAngles (rotateSelectedPage 450 Demo.three_pages)) 1
  = Some (Num (Z.rem (0 + 450) 360)).
Proof.
  split; [reflexivity|]. split; [reflexivity|]. split; [reflexivity|].
  destruct (rotateSelectedPage_angle Demo.three_pages 450) as [_ Hrot].
  exact (proj1 (Hrot 1 0%Z eq_refl eq_refl eq_refl)).
Defined.

(** C5 as stated fails on the "Rotate -90" button: from angle 0 the stored
    angle becomes -90, while (0 + -90) mod 360 is 270. *)
Lemma rotateSelectedPage_not_mod :
  selectedPage Demo.one_page = Some 0 ∧
  js_get (rotationAngles Demo.one_page) 0 = Some (Num 0%Z) ∧
  js_get (rotationAngles (rotateSelectedPage (-90) Demo.one_page)) 0
  = Some (Num (-90)%Z) ∧
  ((0 + -90) mod 360 = 270)%Z ∧
  js_get (rotationAngles (rotateSelectedPage (-90) Demo.one_page)) 0
  ≠ Some (Num ((0 + -90) mod 360)%Z).
Proof. repeat split; try reflexivity. discriminate. Qed.

(** ** Loading *)

Section Loading.
Context `{Collaborators}.

(** The render loop draws the pages [i], [i + 1], ... in order and stops at
    the first one that fails. *)
Lemma renderPdfPages_loop_mapM (pdf : PDFJSDocument) (n i : nat)
    (images : list (option string)) :
  renderPdfPages_loop pdf n i images
  = urls ← mapM (pdfjs_renderPage pdf) (seq i n); Some (images ++ (Some <$> urls)).
Proof.
  revert i images. induction n as [|n IH]; intros i images; simpl.
  - by rewrite app_nil_r.
  - destruct (pdfjs_renderPage pdf i) as [url|]; simpl; [|done].
    rewrite IH. destruct (mapM _ (seq (S i) n)) as [urls|]; simpl; [|done].
    by rewrite <- app_assoc.
Qed.

Lemma renderPdfPages_rendered (arrayBuffer : ArrayBuffer) (pageCount : nat)
    (s : State) (pdf : PDFJSDocument) (urls : list string) :
  pdfjs_getDocument arrayBuffer = Some pdf →
  mapM (pdfjs_renderPage pdf) (seq 1 pageCount) = Some urls →
  renderPdfPages arrayBuffer pageCount s = (setPageImages (Some <$> urls) s, []).
Proof.
  intros Hpdf Hurls. unfold renderPdfPages.
  rewrite Hpdf. simpl. by rewrite renderPdfPages_loop_mapM, Hurls.
Qed.

Lemma renderPdfPages_failed (arrayBuffer : ArrayBuffer) (pageCount : nat)
    (s : State) :
  (pdf ← pdfjs_getDocument arrayBuffer;
   mapM (pdfjs_renderPage pdf) (seq 1 pageCount)) = None →
  renderPdfPages arrayBuffer pageCount s
  = (s, [ConsoleError "Error rendering PDF pages:"]).
Proof.
  intros Hfail. unfold renderPdfPages.
  destruct (pdfjs_getDocument arrayBuffer) as [pdf|]; simpl in *; [|done].
  by rewrite renderPdfPages_loop_mapM, Hfail.
Qed.


(** Rendering writes the raster cache and nothing else. *)
Lemma renderPdfPages_frame (arrayBuffer : ArrayBuffer) (pageCount : nat)
    (s : State) :
  (renderPdfPages arrayBuffer pageCount s).1
  = setPageImages (pageImages (renderPdfPages arrayBuffer pageCount s).1) s.
Proof.
  unfold renderPdfPages.
  destruct (_ ≫= _) as [images|]; simpl; [done|by destruct s].
Qed.

(** The handler is its part before the rendering followed by the rendering
    it started. *)
Lemma handleFileUpload_until_render_settles (event : option File) (s : State) :
  handleFileUpload event s
  = match handleFileUpload_until_render event s with
    | (s', _, Some (arrayBuffer, pageCount)) =>
      renderPdfPages arrayBuffer pageCount s'
    | (s', logged, None) => (s', logged)
    end.
Proof.
  unfold handleFileUpload, handleFileUpload_until_render.
  destruct event as [file|]; [|done].
  destruct (_ ≫= _) as [[arrayBuffer doc]|]; [|done].
  by destruct (js_getPageCount doc).
Qed.

(** Once pdf-lib has parsed the file and told its page count the four
    setters have run, whatever the rendering does afterwards. *)
Lemma handleFileUpload_parsed (s : State) (file : File)
    (arrayBuffer : ArrayBuffer) (doc : PDFDocument) :
  file_arrayBuffer file = Some arrayBuffer →
  PDFDocument_load arrayBuffer = Some doc →
  handleFileUpload (Some file) s
  = renderPdfPages arrayBuffer (getPageCount doc)
      {| pdfDoc := Some doc;
         pages := Some <$> seq 0 (getPageCount doc);
         pageImages := pageImages s;
         selectedPage := selectedPage s;
         rotationAngles := replicate (getPageCount doc) (Some (Num 0%Z));
         croppedImages := replicate (getPageCount doc) (Some null);
         zoomLevel := zoomLevel s |}.
Proof.
  intros Hread Hload. unfold handleFileUpload. by rewrite Hread; simpl; rewrite Hload.
Qed.

(** A document that loads and then throws on [getPageCount]: [setPdfDoc] has
    run, nothing else has, and the error logged is the loading error. *)
Lemma handleFileUpload_uncounted (s : State) (file : File)
    (arrayBuffer : ArrayBuffer) :
  file_arrayBuffer file = Some arrayBuffer →
  PDFDocument_load arrayBuffer = Some uncounted →
  handleFileUpload (Some file) s
  = (setPdfDoc uncounted s, [ConsoleError "Error loading PDF:"]).
Proof.
  intros Hread Hload. unfold handleFileUpload. by rewrite Hread; simpl; rewrite Hload.
Qed.

(** A load that parses and renders: the page list, the angles, the crop
    overrides and the raster cache are those of the new document; the
    selection and the zoom level are those of the old state. *)
Lemma handleFileUpload_loaded (s : State) (file : File)
    (arrayBuffer : ArrayBuffer) (doc : PDFDocument) (pdf : PDFJSDocument)
    (urls : list string) :
  file_arrayBuffer file = Some arrayBuffer →
  PDFDocument_load arrayBuffer = Some doc →
  pdfjs_getDocument arrayBuffer = Some pdf →
  mapM (pdfjs_renderPage pdf) (seq 1 (getPageCount doc)) = Some urls →
  handleFileUpload (Some file) s
  = ({| pdfDoc := Some doc;
        pages := Some <$> seq 0 (getPageCount doc);
        pageImages := Some <$> urls;
        selectedPage := selectedPage s;
        rotationAngles := replicate (getPageCount doc) (Some (Num 0%Z));
        croppedImages := replicate (getPageCount doc) (Some null);
        zoomLevel := zoomLevel s |}, []).
Proof.
  intros Hread Hload Hpdf Hurls.
  rewrite (handleFileUpload_parsed _ _ _ _ Hread Hload).
  by rewrite (renderPdfPages_rendered _ _ _ _ _ Hpdf Hurls).
Qed.

(** A file that pdf-lib parses and pdfjs cannot render: the page list, the
    angles and the crop overrides are already those of the new document,
    the raster cache is still the old one, and the error logged is the
    rendering error. *)
Lemma handleFileUpload_not_rendered (s : State) (file : File)
    (arrayBuffer : ArrayBuffer) (doc : PDFDocument) :
  file_arrayBuffer file = Some arrayBuffer →
  PDFDocument_load arrayBuffer = Some doc →
  (pdf ← pdfjs_getDocument arrayBuffer;
   mapM (pdfjs_renderPage pdf) (seq 1 (getPageCount doc))) = None →
  handleFileUpload (Some file) s
  = ({| pdfDoc := Some doc;
        pages := Some <$> seq 0 (getPageCount doc);
        pageImages := pageImages s;
        selectedPage := selectedPage s;
        rotationAngles := replicate (getPageCount doc) (Some (Num 0%Z));
        croppedImages := replicate (getPageCount doc) (Some null);
        zoomLevel := zoomLevel s |},
     [ConsoleError "Error rendering PDF pages:"]).
Proof.
  intros Hread Hload Hfail.
  rewrite (handleFileUpload_parsed _ _ _ _ Hread Hload).
  by rewrite (renderPdfPages_failed _ _ _ Hfail).
Qed.


(** No handler ever clears the selection: a load keeps it. *)
Lemma handleFileUpload_until_render_selectedPage (event : option File)
    (s : State) :
  selectedPage (handleFileUpload_until_render event s).1.1 = selectedPage s.
Proof.
  unfold handleFileUpload_until_render. destruct event as [file|]; [|done].
  destruct (_ ≫= _) as [[arrayBuffer doc]|]; [|done].
  by destruct (js_getPageCount doc).
Qed.

Lemma handleFileUpload_selectedPage (event : option File) (s : State) :
  selectedPage (handleFileUpload event s).1 = selectedPage s.
Proof.
  unfold handleFileUpload. destruct event as [file|]; [|done].
  destruct (_ ≫= _) as [[arrayBuffer doc]|]; [|done].
  destruct (js_getPageCount doc); [|done].
  by rewrite renderPdfPages_frame.
Qed.

(** When the file cannot be read or pdf-lib's [load] rejects it, the load
    logs "Error loading PDF:" and the state that comes out is the state that
    went in: no setter has run. *)
Lemma handleFileUpload_parse_failure (s : State) (file : File) :
  file_arrayBuffer file ≫= PDFDocument_load = None →
  handleFileUpload (Some file) s = (s, [ConsoleError "Error loading PDF:"]).
Proof.
  intros Hfail. unfold handleFileUpload.
  destruct (file_arrayBuffer file) as [arrayBuffer|]; simpl in *; [|done].
  by rewrite Hfail.
Qed.

End Loading.

(** C3 fails on two kinds of file.  A file that pdf-lib loads and pdfjs
    cannot open ("%PDF~b", two pages), loaded over a session of three
    pages with page 1 selected and cropped and page 0 turned: the load logs
    an error, and the document, the page list, the angles and the crop
    overrides are already those of the new file, while the raster cache is
    the old one.  A file that pdf-lib loads and whose page count throws
    ("%PDF?"): "Error loading PDF:" is logged and the document has been
    replaced. *)
Theorem handleFileUpload_failure_mutates :
  Demo.getDocument "%PDF~b" = None ∧
  handleFileUpload (H := Demo.collaborators) (Some "%PDF~b") Demo.three_pages
  = ({| pdfDoc := Some {| getPageCount := 2 |};
        pages := [Some 0; Some 1];
        pageImages := [Some "data:a"; Some "crop:x:data:b"; Some "data:c"];
        selectedPage := Some 1;
        rotationAngles := [Some (Num 0%Z); Some (Num 0%Z)];
        croppedImages := [Some null; Some null];
        zoomLevel := 1%R |},
     [ConsoleError "Error rendering PDF pages:"]) ∧
  pages Demo.three_pages = [Some 2; Some 0; Some 1] ∧
  rotationAngles Demo.three_pages
  = [Some (Num 90%Z); Some (Num 0%Z); Some (Num 0%Z)] ∧
  croppedImages Demo.three_pages
  = [Some null; Some (dataUrl "crop:x:data:b"); Some null] ∧
  js_getPageCount uncounted = None ∧
  handleFileUpload (H := Demo.collaborators) (Some "%PDF?") Demo.three_pages
  = ({| pdfDoc := Some uncounted;
        pages := [Some 2; Some 0; Some 1];
        pageImages := [Some "data:a"; Some "crop:x:data:b"; Some "data:c"];
        selectedPage := Some 1;
        rotationAngles := [Some (Num 90%Z); Some (Num 0%Z); Some (Num 0%Z)];
        croppedImages := [Some null; Some (dataUrl "crop:x:data:b"); Some null];
        zoomLevel := 1%R |},
     [ConsoleError "Error loading PDF:"]) ∧
  pdfDoc Demo.three_pages = Some {| getPageCount := 3 |}.
Proof. repeat split; reflexivity. Qed.

(** A file that pdf-lib's [load] rejects, on the session of three pages:
    the error is logged and the session is as it was. *)
Lemma handleFileUpload_parse_failure_example :
  Demo.load "not a pdf" = None ∧
  handleFileUpload (H := Demo.collaborators) (Some "not a pdf") Demo.three_pages
  = (Demo.three_pages, [ConsoleError "Error loading PDF:"]).
Proof.
  split; [reflexivity|].
  apply (handleFileUpload_parse_failure (H := Demo.collaborators)).
  reflexivity.
Qed.

(** C2 at a concrete session: three pages are loaded, page 1 is selected
    and cropped, page 0 is turned, and then a one-page file is loaded.  Page
    list, angles, crop overrides and rasters are those of the new file, but
    the selection is still page 1, which the new document does not have. *)
Theorem handleFileUpload_keeps_selection :
  selectedPage Demo.three_pages = Some 1 ∧
  handleFileUpload (H := Demo.collaborators) (Some "%PDFz") Demo.three_pages
  = ({| pdfDoc := Some {| getPageCount := 1 |};
        pages := [Some 0];
        pageImages := [Some "data:z"];
        selectedPage := Some 1;
        rotationAngles := [Some (Num 0%Z)];
        croppedImages := [Some null];
        zoomLevel := 1%R |}, []).
Proof. split; reflexivity. Qed.

(** What the stale selection then does: "Rotate 90" writes [NaN] at index 1
    of an array that had one slot. *)
Lemma rotate_after_reload :
  rotationAngles
    (rotateSelectedPage 90
       (handleFileUpload (H := Demo.collaborators) (Some "%PDFz")
                         Demo.three_pages).1)
  = [Some (Num 0%Z); Some NaN].
Proof. reflexivity. Qed.

(** A file whose second page does not render, loaded over [one_page]: three
    pages are listed and the raster cache still holds the old single page. *)
Lemma handleFileUpload_render_failure_example :
  handleFileUpload (H := Demo.collaborators) (Some "%PDFa!c") Demo.one_page
  = ({| pdfDoc := Some {| getPageCount := 3 |};
        pages := [Some 0; Some 1; Some 2];
        pageImages := [Some "data:a"];
        selectedPage := Some 0;
        rotationAngles := [Some (Num 0%Z); Some (Num 0%Z); Some (Num 0%Z)];
        croppedImages := [Some null; Some null; Some null];
        zoomLevel := 1%R |},
     [ConsoleError "Error rendering PDF pages:"]).
Proof. reflexivity. Qed.

(** ** Reachable states *)

Lemma onDragEnd_frame (result : DropResult) (s : State) :
  onDragEnd result s = setPages (pages (onDragEnd result s)) s.
Proof.
  unfold onDragEnd. destruct (destination result) as [dst|]; [|by destruct s].
  by destruct (splice_delete1 _ _).
Qed.

Lemma js_get_replicate {A} (n i : nat) (x y : A) :
  js_get (replicate n (Some x)) i = Some y → y = x.
Proof.
  unfold js_get. intros Hget.
  destruct (replicate n (Some x) !! i) as [slot|] eqn:Hslot; [|done].
  apply lookup_replicate_1 in Hslot as [-> _]. simpl in Hget. congruence.
Qed.


Lemma rem_360_range (x : Z) : (-360 < Z.rem x 360 < 360)%Z.
Proof. Z.to_euclidean_division_equations. lia. Qed.

(** The sums the two buttons form on an angle between -360 and 360 are far
    below 2^53. *)
Lemma quarter_sum_exact (a angle : Z) :
  (-360 < a < 360)%Z → (angle = 90 ∨ angle = -90)%Z →
  (Z.abs (a + angle) < 2 ^ 53)%Z.
Proof. change (2 ^ 53)%Z with 9007199254740992%Z. lia. Qed.

Lemma quarter_turn_rotate (a angle : Z) :
  quarter_turn a → (angle = 90 ∨ angle = -90)%Z →
  quarter_turn (Z.rem (a + angle) 360).
Proof.
  unfold quarter_turn. intros [Hrange Hmod] Hangle.
  split; Z.to_euclidean_division_equations; lia.
Qed.

Section Reachable.
Context `{Collaborators}.

Lemma handleFileUpload_until_render_rotationAngles (event : option File)
    (s : State) :
  rotationAngles (handleFileUpload_until_render event s).1.1 = rotationAngles s ∨
  ∃ n, rotationAngles (handleFileUpload_until_render event s).1.1
       = replicate n (Some (Num 0%Z)).
Proof.
  unfold handleFileUpload_until_render. destruct event as [file|]; [|by left].
  destruct (_ ≫= _) as [[arrayBuffer doc]|]; [|by left].
  destruct (js_getPageCount doc) as [pageCount|]; [|by left].
  right. by exists pageCount.
Qed.

Lemma handleFileUpload_rotationAngles (event : option File) (s : State) :
  rotationAngles (handleFileUpload event s).1 = rotationAngles s ∨
  ∃ n, rotationAngles (handleFileUpload event s).1 = replicate n (Some (Num 0%Z)).
Proof.
  unfold handleFileUpload. destruct event as [file|]; [|by left].
  destruct (_ ≫= _) as [[arrayBuffer doc]|]; [|by left].
  destruct (js_getPageCount doc) as [pageCount|]; [|by left].
  right. exists pageCount. by rewrite renderPdfPages_frame.
Qed.

Lemma handleCrop_frame (box : CropBox) (s s' : State) :
  handleCrop box s = Some s' →
  s' = setPageImages (pageImages s') (setCroppedImages (croppedImages s') s).
Proof.
  unfold handleCrop. intros Hcrop.
  destruct (cropperRef_current s) as [cropper|]; simpl in Hcrop; [|done].
  destruct (cropper_toDataURL cropper box) as [url|]; simpl in Hcrop; [|done].
  by injection Hcrop as <-.
Qed.

Lemma quarter_turns_replicate (angles : list (option (JSNum Z))) (n : nat) :
  angles = replicate n (Some (Num 0%Z)) →
  ∀ i a, js_get angles i = Some (Num a) → quarter_turn a.
Proof.
  intros -> i a Hget. apply js_get_replicate in Hget.
  injection Hget as ->. by split.
Qed.

(** The end of a rendering writes the raster cache only. *)
Lemma step_RenderSettles_frame (arrayBuffer : ArrayBuffer) (pageCount : nat)
    (s : State) :
  step (RenderSettles arrayBuffer pageCount) s
  = setPageImages
      (pageImages (step (RenderSettles arrayBuffer pageCount) s)) s.
Proof. unfold step. apply renderPdfPages_frame. Qed.

Lemma step_quarter_turns (a : Action) (s : State) :
  enabled s a → quarter_turns s → quarter_turns (step a s).
Proof.
  intros Hen Hs.
  destruct a as [event|event|arrayBuffer pageCount| |result|pageIndex|angle|box| |];
    unfold step; try done.
  - unfold quarter_turns.
    destruct (handleFileUpload_rotationAngles event s) as [->|[n Hn]]; [done|].
    by eapply quarter_turns_replicate.
  - unfold quarter_turns.
    destruct (handleFileUpload_until_render_rotationAngles event s)
      as [->|[n Hn]]; [done|].
    by eapply quarter_turns_replicate.
  - by rewrite onDragEnd_frame.
  - destruct Hen as [Hsel Hangle].
    destruct (selectedPage s) as [p|] eqn:Hp; [|done].
    rewrite (rotateSelectedPage_selected _ _ _ Hp).
    unfold quarter_turns. simpl.
    intros i a Hget. destruct (decide (i = p)) as [->|Hne].
    + rewrite js_get_set_eq in Hget. injection Hget as Hget.
      destruct (js_get (rotationAngles s) p) as [[|a0]|] eqn:Hold; try done.
      assert (Hq : quarter_turn a0) by (by eapply Hs).
      rewrite js_add_rem360_exact in Hget
        by (apply quarter_sum_exact; [apply Hq|done]).
      injection Hget as <-. by apply quarter_turn_rotate.
    + rewrite js_get_set_ne in Hget by done. by eapply Hs.
  - destruct (handleCrop box s) as [s'|] eqn:Hcrop; simpl; [|done].
    by rewrite (handleCrop_frame _ _ _ Hcrop).
Qed.

Lemma reachable_rendering_quarter_turns (rendering : list (ArrayBuffer * nat))
    (s : State) :
  reachable_rendering rendering s → quarter_turns s.
Proof.
  induction 1 as [|rendering s a Hs IH Hen
                  |rendering1 arrayBuffer pageCount rendering2 s Hs IH].
  - intros i a Hget. by rewrite js_get_ge in Hget by (simpl; lia).
  - by apply step_quarter_turns.
  - by rewrite step_RenderSettles_frame.
Qed.

(** In every reachable state each stored angle that is a number is a
    multiple of 90 strictly between -360 and 360. *)
Lemma reachable_quarter_turns (s : State) : reachable s → quarter_turns s.
Proof. intros [rendering Hs]. by eapply reachable_rendering_quarter_turns. Qed.

(** C9, as the code has it.  In a reachable state with page [p] selected at
    the stored angle [a], four presses of "Rotate 90" leave [a mod 360] at
    [p]: the original value when [a] is not negative, and [a + 360] when
    [a] is negative (an angle reached with "Rotate -90"), which is the same
    rotation but not the same stored value. *)
Theorem rotate_90_four_times (s : State) (p : nat) (a : Z) :
  reachable s →
  selectedPage s = Some p →
  js_get (rotationAngles s) p = Some (Num a) →
  let s' := Nat.iter 4 (rotateSelectedPage 90) s in
  js_get (rotationAngles s') p = Some (Num (a mod 360)%Z) ∧
  (0 ≤ a → a mod 360 = a)%Z ∧
  (a < 0 → a mod 360 = a + 360)%Z.
Proof.
  intros Hreach Hp Ha s'. subst s'.
  destruct (reachable_quarter_turns s Hreach p a Ha) as [Hrange _].
  assert (Hexact : ∀ x, (Z.abs (Z.rem x 360 + 90) < 2 ^ 53)%Z).
  { intros x. apply quarter_sum_exact; [apply rem_360_range|by left]. }
  simpl.
  destruct (rotateSelectedPage_at s 90 p a Hp Ha) as [Hp1 Ha1];
    [apply quarter_sum_exact; [done|by left]|].
  destruct (rotateSelectedPage_at _ 90 p _ Hp1 Ha1 (Hexact _)) as [Hp2 Ha2].
  destruct (rotateSelectedPage_at _ 90 p _ Hp2 Ha2 (Hexact _)) as [Hp3 Ha3].
  destruct (rotateSelectedPage_at _ 90 p _ Hp3 Ha3 (Hexact _)) as [_ Ha4].
  rewrite Ha4. repeat split.
  - do 2 f_equal. Z.to_euclidean_division_equations. lia.
  - intros Hpos. Z.to_euclidean_division_equations. lia.
  - intros Hneg. Z.to_euclidean_division_equations. lia.
Qed.

End Reachable.

Lemma reachable_turned_back : reachable (H := Demo.collaborators) Demo.turned_back.
Proof.
  exists []. unfold Demo.turned_back, run. cbn [foldl].
  apply (reachable_step (H := Demo.collaborators) [] _ (Rotate (-90)));
    [apply (reachable_step (H := Demo.collaborators) [] _ (SelectPage 0));
       [apply (reachable_step (H := Demo.collaborators) [] _
                 (FileUpload (H := Demo.collaborators) (Some "%PDFa")))|]|].
  - apply reachable_initial.
  - exact I.
  - change (Some 0 ∈ [Some 0]). apply list_elem_of_here.
  - split; [discriminate|by right].
Qed.

Lemma rotate_90_four_times_witness :
  reachable (H := Demo.collaborators) Demo.turned_back ∧
  selectedPage Demo.turned_back = Some 0 ∧
  js_get (rotationAngles Demo.turned_back) 0 = Some (Num (-90)%Z) ∧
  js_get (rotationAngles (Nat.iter 4 (rotateSelectedPage 90) Demo.turned_back)) 0
  = Some (Num ((-90) mod 360)%Z).
Proof.
  split; [exact reachable_turned_back|].
  split; [reflexivity|]. split; [reflexivity|].
  exact (proj1 (rotate_90_four_times (H := Demo.collaborators)
                  Demo.turned_back 0 (-90)%Z
                  reachable_turned_back eq_refl eq_refl)).
Defined.

(** C9 as stated fails after "Rotate -90": the stored angle is -90, and four
    presses of "Rotate 90" store 0, 90, 180 and then 270. *)
Lemma rotate_90_four_times_not_identity :
  reachable (H := Demo.collaborators) Demo.turned_back ∧
  selectedPage Demo.turned_back = Some 0 ∧
  js_get (rotationAngles Demo.turned_back) 0 = Some (Num (-90)%Z) ∧
  js_get (rotationAngles (Nat.iter 4 (rotateSelectedPage 90) Demo.turned_back)) 0
  = Some (Num 270%Z) ∧
  js_get (rotationAngles (Nat.iter 4 (rotateSelectedPage 90) Demo.turned_back)) 0
  ≠ js_get (rotationAngles Demo.turned_back) 0.
Proof.
  split; [exact reachable_turned_back|].
  repeat split; try reflexivity. discriminate.
Qed.

(** ** Cropping *)

Section Cropping.
Context `{Collaborators}.

Lemma handleCrop_unselected (box : CropBox) (s : State) :
  selectedPage s = None → handleCrop box s = None.
Proof. unfold handleCrop, cropperRef_current. by intros ->. Qed.

Lemma handleCrop_selected (box : CropBox) (s : State) (p : nat) :
  selectedPage s = Some p →
  handleCrop box s
  = croppedDataUrl ← cropper_toDataURL (js_get (pageImages s) p) box;
    Some (setPageImages (js_set (pageImages s) p croppedDataUrl)
            (setCroppedImages
               (js_set (croppedImages s) p (dataUrl croppedDataUrl)) s)).
Proof. unfold handleCrop, cropperRef_current. by intros ->. Qed.


(** C8. With page [p] selected, a crop writes slot [p] of the crop overrides
    and of the raster cache, whatever override was there, and nothing else:
    every other page keeps its raster and its override, and the angles, the
    page list, the selection, the document and the zoom level are the same.
    When the cropper throws, nothing is written at all. *)
Theorem handleCrop_only_selected (box : CropBox) (s : State) (p : nat) :
  selectedPage s = Some p →
  let s' := step (Crop box) s in
  (∀ croppedDataUrl,
     cropper_toDataURL (js_get (pageImages s) p) box = Some croppedDataUrl →
     handleCrop box s = Some s' ∧
     js_get (croppedImages s') p = Some (dataUrl croppedDataUrl) ∧
     js_get (pageImages s') p = Some croppedDataUrl) ∧
  (cropper_toDataURL (js_get (pageImages s) p) box = None →
   handleCrop box s = None ∧ s' = s) ∧
  (∀ q, q ≠ p →
        js_get (pageImages s') q = js_get (pageImages s) q ∧
        js_get (croppedImages s') q = js_get (croppedImages s) q) ∧
  rotationAngles s' = rotationAngles s ∧
  pages s' = pages s ∧
  selectedPage s' = selectedPage s ∧
  pdfDoc s' = pdfDoc s ∧
  zoomLevel s' = zoomLevel s.
Proof.
  intros Hp s'. subst s'. unfold step.
  rewrite (handleCrop_selected _ _ _ Hp).
  destruct (cropper_toDataURL _ box) as [url|]; simpl.
  - split.
    { intros ? [= <-]. by rewrite !js_get_set_eq. }
    split; [done|].
    split; [|done].
    intros q Hq. by rewrite !js_get_set_ne.
  - split; [done|]. by repeat split.
Qed.

Lemma handleCrop_holds_raster (box : CropBox) (s s' : State) (url : string) :
  handleCrop box s = Some s' →
  holds_raster s' url →
  holds_raster s url ∨ ∃ src, cropper_toDataURL src box = Some url.
Proof.
  intros Hcrop [q Hq].
  destruct (selectedPage s) as [p|] eqn:Hp;
    [|by rewrite handleCrop_unselected in Hcrop].
  rewrite (handleCrop_selected _ _ _ Hp) in Hcrop.
  destruct (cropper_toDataURL _ box) as [cropped|] eqn:Hcropper;
    simpl in Hcrop; [|done].
  injection Hcrop as <-. simpl in Hq.
  destruct (decide (q = p)) as [->|Hne].
  - right. exists (js_get (pageImages s) p).
    rewrite !js_get_set_eq in Hq. destruct Hq as [Hq|Hq]; congruence.
  - left. exists q. by rewrite !js_get_set_ne in Hq.
Qed.

(** No handler but the load brings a raster into the session, except the
    cropper with its own output. *)
Lemma step_holds_raster (a : Action) (s : State) (url : string) :
  is_upload a = false →
  holds_raster (step a s) url →
  holds_raster s url ∨ ∃ src box, cropper_toDataURL src box = Some url.
Proof.
  intros Ha Hholds.
  destruct a as [event|event|arrayBuffer pageCount| |result|pageIndex|angle|box| |];
    unfold step in Hholds; try done; try (by left).
  - left. by rewrite onDragEnd_frame in Hholds.
  - left. unfold rotateSelectedPage in Hholds.
    by destruct (selectedPage s).
  - destruct (handleCrop box s) as [s'|] eqn:Hcrop; simpl in Hholds; [|by left].
    destruct (handleCrop_holds_raster _ _ _ _ Hcrop Hholds) as [?|[src ?]];
      [by left|right; eauto].
Qed.

Lemma run_holds_raster (actions : list Action) (s : State) (url : string) :
  Forall (λ a, is_upload a = false) actions →
  holds_raster (run actions s) url →
  holds_raster s url ∨ ∃ src box, cropper_toDataURL src box = Some url.
Proof.
  intros Hactions. revert s.
  induction Hactions as [|a actions Ha _ IH]; intros s Hholds; [by left|].
  unfold run in *. simpl in Hholds.
  destruct (IH _ Hholds) as [Hstep|?]; [|by right].
  by eapply step_holds_raster.
Qed.

(** C10.  After a crop of the selected page [p] that gave [croppedDataUrl],
    the raster cache and the crop override of [p] both hold it; the cropper
    is then mounted on it, so the next crop of [p] is computed from it and
    not from the rendered page.  The rendered raster [original] of [p] is
    held by the session afterwards only if it is equal to the crop or is the
    raster or override of another page; and if the cropper never returns it,
    no sequence of actions without a load brings it back. *)
Theorem handleCrop_replaces_source (box : CropBox) (s s' : State) (p : nat)
    (croppedDataUrl : string) :
  selectedPage s = Some p →
  cropper_toDataURL (js_get (pageImages s) p) box = Some croppedDataUrl →
  s' = step (Crop box) s →
  handleCrop box s = Some s' ∧
  js_get (pageImages s') p = Some croppedDataUrl ∧
  js_get (croppedImages s') p = Some (dataUrl croppedDataUrl) ∧
  cropperRef_current s' = Some (Some croppedDataUrl) ∧
  (∀ box2,
     js_get (pageImages (step (Crop box2) s')) p
     = match cropper_toDataURL (Some croppedDataUrl) box2 with
       | Some again => Some again
       | None => Some croppedDataUrl
       end) ∧
  (∀ original,
     js_get (pageImages s) p = Some original →
     original ≠ croppedDataUrl →
     (∀ q, q ≠ p →
           js_get (pageImages s) q ≠ Some original ∧
           js_get (croppedImages s) q ≠ Some (dataUrl original)) →
     ¬ holds_raster s' original) ∧
  (∀ original actions,
     js_get (pageImages s) p = Some original →
     (∀ q, q ≠ p →
           js_get (pageImages s) q ≠ Some original ∧
           js_get (croppedImages s) q ≠ Some (dataUrl original)) →
     (∀ src box', cropper_toDataURL src box' ≠ Some original) →
     Forall (λ a, is_upload a = false) actions →
     ¬ holds_raster (run actions s') original).
Proof.
  intros Hp Hcropper ->.
  assert (Hcrop : handleCrop box s
                  = Some (setPageImages (js_set (pageImages s) p croppedDataUrl)
                            (setCroppedImages
                               (js_set (croppedImages s) p (dataUrl croppedDataUrl))
                               s))).
  { by rewrite (handleCrop_selected _ _ _ Hp), Hcropper. }
  unfold step. rewrite Hcrop. simpl.
  set (s' := setPageImages _ _).
  assert (Hp' : selectedPage s' = Some p) by done.
  assert (Hnow : js_get (pageImages s') p = Some croppedDataUrl)
    by apply js_get_set_eq.
  assert (Hgone : ∀ original,
             original ≠ croppedDataUrl →
             (∀ q, q ≠ p →
                   js_get (pageImages s) q ≠ Some original ∧
                   js_get (croppedImages s) q ≠ Some (dataUrl original)) →
             ¬ holds_raster s' original).
  { intros original Hne Hothers [q Hq]. simpl in Hq.
    destruct (decide (q = p)) as [->|Hqp].
    - rewrite !js_get_set_eq in Hq. destruct Hq as [Hq|Hq]; congruence.
    - rewrite !js_get_set_ne in Hq by done.
      destruct (Hothers q Hqp) as [H1 H2]. by destruct Hq. }
  split; [done|]. split; [done|].
  split; [apply js_get_set_eq|].
  split.
  { unfold cropperRef_current. rewrite Hp'. cbn [mbind option_bind].
    by rewrite Hnow. }
  split.
  { intros box2. rewrite (handleCrop_selected _ _ _ Hp'), Hnow.
    destruct (cropper_toDataURL _ box2) as [again|]; simpl; [|done].
    apply js_get_set_eq. }
  split.
  { intros original _. apply Hgone. }
  intros original actions Horig Hothers Hnever Hactions Hholds.
  destruct (run_holds_raster _ _ _ Hactions Hholds) as [Hback|(src & box' & Hout)].
  - revert Hback. apply Hgone; [|done].
    intros ->. by apply (Hnever _ _ Hcropper).
  - by apply (Hnever _ _ Hout).
Qed.

End Cropping.

(** ** Export *)

Lemma js_get_seq {A} (arr : list (option A)) :
  js_get arr <$> seq 0 (length arr) = arr.
Proof.
  apply list_eq. intros i. rewrite list_lookup_fmap.
  destruct (decide (i < length arr)) as [Hi|Hi].
  - rewrite lookup_seq_lt by done. simpl.
    destruct (lookup_lt_is_Some_2 _ _ Hi) as [x Hx].
    by rewrite Hx, (js_get_lookup _ _ _ Hx).
  - rewrite lookup_seq_ge, lookup_ge_None_2 by lia. done.
Qed.

Lemma js_or_override (original : option string) (url : string) :
  url ≠ "" → js_or (Some (dataUrl url)) original = Some url.
Proof. intros Hurl. simpl. by case_decide. Qed.

Lemma js_mul_pi_180_num (a : Z) :
  js_mul_pi_180 (Some (Num a)) = Num (IZR a * PI / 180)%R.
Proof. simpl. f_equal. unfold Rdiv. ring. Qed.

Lemma js_mul_pi_180_nan (angle : option (JSNum Z)) :
  ¬ (∃ a, angle = Some (Num a)) → js_mul_pi_180 angle = NaN.
Proof. destruct angle as [[|a]|]; [done| |done]. intros []. by exists a. Qed.

(** Half a turn is pi. *)
Lemma js_mul_pi_180_half_turn : js_mul_pi_180 (Some (Num 180%Z)) = Num PI.
Proof. simpl. f_equal. field. Qed.
Section Exporter.
Context `{Collaborators}.

Lemma handleRearrange_loop_S (s : State) (n i : nat)
    (newPdfDoc : list (PDFPage PDFImage)) :
  handleRearrange_loop s (S n) i newPdfDoc
  = page ← exported_page s (js_get (pages s) i);
    handleRearrange_loop s n (S i) (newPdfDoc ++ [page]).
Proof.
  simpl. unfold exported_page.
  destruct (fetch_arrayBuffer _) as [imageBytes|]; simpl; [|done].
  destruct (embedPng imageBytes) as [image|]; simpl; [|done].
  destruct (newPdfDoc_addPage _) as [[]|]; simpl; [|done].
  by destruct (page_drawImage image _) as [[]|].
Qed.

(** The loop runs [exported_page] on the identifiers it reads at its
    positions, in order, and stops at the first one that throws. *)
Lemma handleRearrange_loop_mapM (s : State) (n i : nat)
    (newPdfDoc : list (PDFPage PDFImage)) :
  handleRearrange_loop s n i newPdfDoc
  = added ← mapM (exported_page s) (js_get (pages s) <$> seq i n);
    Some (newPdfDoc ++ added).
Proof.
  revert i newPdfDoc. induction n as [|n IH]; intros i newPdfDoc.
  - simpl. by rewrite app_nil_r.
  - rewrite handleRearrange_loop_S. simpl.
    destruct (exported_page s _) as [page|]; simpl; [|done].
    rewrite IH. destruct (mapM _ _) as [added|]; simpl; [|done].
    by rewrite <- app_assoc.
Qed.

Lemma handleRearrange_loop_pages (s : State) :
  handleRearrange_loop s (length (pages s)) 0 []
  = mapM (exported_page s) (pages s).
Proof.
  rewrite handleRearrange_loop_mapM, js_get_seq.
  by destruct (mapM _ _).
Qed.

(** What an iteration that completes has done: the raster it took was
    fetched and embedded, the page has the size of the image, and the one
    call of [drawImage] has the image at (0, 0) at that size and the stored
    angle times pi / 180, a number, for [rotate]. *)
Lemma exported_page_Some (s : State) (pageIndex : option nat)
    (page : PDFPage PDFImage) :
  exported_page s pageIndex = Some page →
  ∃ imageBytes image,
    fetch_arrayBuffer
      (js_or (js_get_key (croppedImages s) pageIndex)
             (js_get_key (pageImages s) pageIndex)) = Some imageBytes ∧
    embedPng imageBytes = Some image ∧
    page
    = {| page_size := (image_width image, image_height image);
         page_content :=
           [(image,
             {| opt_x := 0; opt_y := 0;
                opt_width := image_width image;
                opt_height := image_height image;
                opt_rotate :=
                  rotate_number
                    (js_mul_pi_180
                       (js_get_key (rotationAngles s) pageIndex)) |})] |} ∧
    page_drawImage image
      {| opt_x := 0; opt_y := 0;
         opt_width := image_width image;
         opt_height := image_height image;
         opt_rotate :=
           rotate_number
             (js_mul_pi_180 (js_get_key (rotationAngles s) pageIndex)) |}
    = Some ().
Proof.
  unfold exported_page. intros Hpage.
  destruct (fetch_arrayBuffer _) as [imageBytes|]; simpl in Hpage; [|done].
  destruct (embedPng imageBytes) as [image|] eqn:Hembed; simpl in Hpage; [|done].
  destruct (newPdfDoc_addPage _) as [[]|]; simpl in Hpage; [|done].
  destruct (page_drawImage image _) as [[]|] eqn:Hdraw; simpl in Hpage; [|done].
  injection Hpage as <-. by exists imageBytes, image.
Qed.

Lemma exported_page_readable (s : State) (pageIndex : option nat)
    (page : PDFPage PDFImage) :
  exported_page s pageIndex = Some page → raster_readable s pageIndex.
Proof.
  intros Hpage.
  destruct (exported_page_Some _ _ _ Hpage)
    as (imageBytes & image & Hfetch & Hembed & _).
  unfold raster_readable. rewrite Hfetch. simpl. by rewrite Hembed.
Qed.

Lemma exported_page_unreadable (s : State) (pageIndex : option nat) :
  ¬ raster_readable s pageIndex → exported_page s pageIndex = None.
Proof.
  intros Hnot. destruct (exported_page s pageIndex) as [page|] eqn:Hpage; [|done].
  destruct Hnot. by eapply exported_page_readable.
Qed.

(** With a [drawImage] that rejects a number for [rotate], no iteration of
    the loop completes. *)
Lemma exported_page_rejected (s : State) (pageIndex : option nat) :
  drawImage_rejects_number → exported_page s pageIndex = None.
Proof.
  intros Hrejects.
  destruct (exported_page s pageIndex) as [page|] eqn:Hpage; [|done].
  destruct (exported_page_Some _ _ _ Hpage)
    as (imageBytes & image & _ & _ & _ & Hdraw).
  erewrite Hrejects in Hdraw; [done|reflexivity].
Qed.

Lemma handleRearrange_loop_unreadable (s : State) (pageIndex : option nat) :
  pageIndex ∈ pages s →
  ¬ raster_readable s pageIndex →
  handleRearrange_loop s (length (pages s)) 0 [] = None.
Proof.
  intros Hin Hnot. rewrite handleRearrange_loop_pages.
  destruct (mapM _ _) as [newPdfDoc|] eqn:Hloop; [|done].
  apply mapM_Some in Hloop.
  apply list_elem_of_lookup in Hin as [i Hi].
  destruct (Forall2_lookup_l _ _ _ _ _ Hloop Hi) as (page & _ & Hpage).
  destruct Hnot. by eapply exported_page_readable.
Qed.

(** C1 fails on every session with a page to export.  Line 79 gives
    [drawImage] the stored angle times pi / 180, a bare number, for
    [rotate]; pdf-lib's [drawImage] takes a [Rotation] there and throws on a
    number.  So with a document loaded and a page list that is not empty the
    export leaves the loop at the first page through the catch: it logs
    "Error creating PDF:" and no document is offered for download. *)
Theorem handleRearrange_rotate_rejected (s : State) :
  drawImage_rejects_number →
  is_Some (pdfDoc s) →
  pages s ≠ [] →
  handleRearrange_loop s (length (pages s)) 0 [] = None ∧
  handleRearrange s = [ConsoleError "Error creating PDF:"] ∧
  ∀ filename content, Download filename content ∉ handleRearrange s.
Proof.
  intros Hrejects [doc Hdoc] Hpages.
  assert (Hloop : handleRearrange_loop s (length (pages s)) 0 [] = None).
  { rewrite handleRearrange_loop_pages.
    destruct (pages s) as [|pageIndex rest]; [done|].
    cbn [mapM]. by rewrite exported_page_rejected. }
  assert (Hlogs : handleRearrange s = [ConsoleError "Error creating PDF:"]).
  { unfold handleRearrange. by rewrite Hdoc, Hloop. }
  split; [done|]. split; [done|].
  intros filename content Hdl. rewrite Hlogs in Hdl.
  apply list_elem_of_singleton in Hdl. discriminate.
Qed.

(** C6. When a raster of the page list cannot be fetched or embedded, the
    export offers nothing for download, and with a document loaded it logs
    "Error creating PDF:" and does nothing else.  Whenever a download is
    offered, it is the saved bytes of a document with one page for every
    position of the page list, all of whose rasters were readable. *)
Theorem handleRearrange_all_or_nothing (s : State) :
  (∀ pageIndex,
     pageIndex ∈ pages s →
     ¬ raster_readable s pageIndex →
     (∀ filename content, Download filename content ∉ handleRearrange s) ∧
     (is_Some (pdfDoc s) →
      handleRearrange s = [ConsoleError "Error creating PDF:"])) ∧
  (∀ filename content,
     Download filename content ∈ handleRearrange s →
     ∃ newPdfDoc,
       handleRearrange_loop s (length (pages s)) 0 [] = Some newPdfDoc ∧
       PDFDocument_save newPdfDoc = Some content ∧
       length newPdfDoc = length (pages s) ∧
       Forall (raster_readable s) (pages s) ∧
       handleRearrange s = [Download "rearranged.pdf" content]).
Proof.
  split.
  - intros pageIndex Hin Hnot.
    pose proof (handleRearrange_loop_unreadable s pageIndex Hin Hnot) as Hloop.
    unfold handleRearrange. rewrite Hloop. simpl.
    destruct (pdfDoc s) as [doc|]; split.
    + intros filename content Hdl.
      apply list_elem_of_singleton in Hdl. discriminate.
    + done.
    + intros filename content Hdl. by apply not_elem_of_nil in Hdl.
    + by intros [? ?].
  - intros filename content Hdl. unfold handleRearrange in *.
    destruct (pdfDoc s) as [doc|]; [|by apply not_elem_of_nil in Hdl].
    pose proof (handleRearrange_loop_pages s) as Hpages.
    destruct (handleRearrange_loop _ _ _ _) as [newPdfDoc|]; simpl in *.
    2:{ apply list_elem_of_singleton in Hdl. discriminate. }
    destruct (PDFDocument_save newPdfDoc) as [pdfBytes|] eqn:Hsave.
    2:{ apply list_elem_of_singleton in Hdl. discriminate. }
    apply list_elem_of_singleton in Hdl. injection Hdl as -> ->.
    symmetry in Hpages. apply mapM_Some in Hpages.
    exists newPdfDoc. split; [done|]. split; [done|].
    split; [symmetry; by eapply Forall2_length|]. split; [|done].
    apply Forall_lookup. intros i pageIndex Hi.
    destruct (Forall2_lookup_l _ _ _ _ _ Hpages Hi) as (page & _ & Hpage).
    by eapply exported_page_readable.
Qed.

End Exporter.

(** ** The theorems on concrete sessions *)

Section Sessions.
#[local] Existing Instance Demo.collaborators.

(** The double of [drawImage] rejects a number as pdf-lib does. *)
Lemma Demo_drawImage_rejects_number : drawImage_rejects_number.
Proof.
  intros image options n Hrotate. simpl. unfold Demo.drawImage.
  by rewrite Hrotate.
Qed.

(** The session of the specification's scenario: a file of three pages is
    loaded, the third page is dragged to the front, page 0 is selected and
    turned by 90, and page 1 is selected and cropped. *)
Lemma three_pages_session :
  run [FileUpload (Some "%PDFabc");
       DragEnd {| source_index := 2; destination := Some 0 |};
       SelectPage 0; Rotate 90; SelectPage 1; Crop "x"] initial
  = Demo.three_pages.
Proof. reflexivity. Qed.

Lemma reachable_three_pages : reachable Demo.three_pages.
Proof.
  exists []. rewrite <- three_pages_session. unfold run. cbn [foldl].
  pose proof (reachable_step (H := Demo.collaborators) []) as Hstep.
  apply (Hstep _ (Crop (H := Demo.collaborators) "x"));
    [apply (Hstep _ (SelectPage 1));
       [apply (Hstep _ (Rotate 90));
          [apply (Hstep _ (SelectPage 0));
             [apply (Hstep _ (DragEnd {| source_index := 2;
                                         destination := Some 0 |}));
                [apply (Hstep _ (FileUpload (H := Demo.collaborators)
                                            (Some "%PDFabc")));
                   [apply reachable_initial|]|]|]|]|]|].
  - exact I.
  - split; [simpl; lia|]. intros d [= <-]. simpl. lia.
  - by apply (list_elem_of_lookup_2 _ 1).
  - split; [discriminate|by left].
  - by apply (list_elem_of_lookup_2 _ 2).
  - discriminate.
Qed.

(** A crop while a load is rendering.  Over the session above a one-page
    file is loaded; before its rendering has settled the cropper is still
    mounted on the old raster of page 1 and "Crop" is pressed; then the
    rendering settles.  The state is reachable, and it holds a crop override
    at index 1 of a one-page document that is no raster of the cache. *)
Lemma crop_while_rendering :
  let s := run [FileUploadStarts (Some "%PDFz"); Crop "k";
                RenderSettles "%PDFz" 1] Demo.three_pages in
  reachable s ∧
  pages s = [Some 0] ∧
  croppedImages s = [Some null; Some (dataUrl "crop:k:crop:x:data:b")] ∧
  pageImages s = [Some "data:z"].
Proof.
  split; [|by repeat split].
  destruct reachable_three_pages as [rendering Hs].
  exists rendering. unfold run. cbn [foldl].
  apply (reachable_settles (H := Demo.collaborators) [] "%PDFz" 1 rendering).
  apply (reachable_step (H := Demo.collaborators) (("%PDFz", 1) :: rendering) _
           (Crop (H := Demo.collaborators) "k")); [|discriminate].
  by apply (reachable_step (H := Demo.collaborators) rendering _
              (FileUploadStarts (H := Demo.collaborators) (Some "%PDFz"))).
Qed.

Lemma handleRearrange_rotate_rejected_witness :
  drawImage_rejects_number ∧
  is_Some (pdfDoc Demo.three_pages) ∧
  pages Demo.three_pages ≠ [] ∧
  handleRearrange Demo.three_pages = [ConsoleError "Error creating PDF:"].
Proof.
  assert (Hdoc : is_Some (pdfDoc Demo.three_pages)) by (by eexists).
  assert (Hpages : pages Demo.three_pages ≠ []) by discriminate.
  split; [exact Demo_drawImage_rejects_number|].
  split; [exact Hdoc|]. split; [exact Hpages|].
  exact (proj1 (proj2 (handleRearrange_rotate_rejected Demo.three_pages
                         Demo_drawImage_rejects_number Hdoc Hpages))).
Defined.

Lemma handleRearrange_all_or_nothing_witness :
  Some 1 ∈ pages Demo.missing_raster ∧
  ¬ raster_readable Demo.missing_raster (Some 1) ∧
  handleRearrange Demo.missing_raster = [ConsoleError "Error creating PDF:"].
Proof.
  assert (Hin : Some 1 ∈ pages Demo.missing_raster)
    by (apply (list_elem_of_lookup_2 _ 2); reflexivity).
  assert (Hnot : ¬ raster_readable Demo.missing_raster (Some 1))
    by (intros [image Himage]; discriminate Himage).
  split; [exact Hin|]. split; [exact Hnot|].
  destruct (handleRearrange_all_or_nothing Demo.missing_raster) as [Hfail _].
  apply (Hfail (Some 1) Hin Hnot). by eexists.
Defined.


Lemma handleCrop_only_selected_witness :
  selectedPage Demo.three_pages = Some 1 ∧
  js_get (croppedImages
            (step (Crop (H := Demo.collaborators) "y") Demo.three_pages)) 1
  = Some (dataUrl "crop:y:crop:x:data:b") ∧
  rotationAngles (step (Crop (H := Demo.collaborators) "y") Demo.three_pages)
  = rotationAngles Demo.three_pages.
Proof.
  split; [reflexivity|].
  destruct (handleCrop_only_selected (H := Demo.collaborators)
              "y" Demo.three_pages 1 eq_refl)
    as (Hcrop & _ & _ & Hangles & _).
  split; [|exact Hangles].
  exact (proj1 (proj2 (Hcrop "crop:y:crop:x:data:b" eq_refl))).
Defined.

Lemma handleCrop_replaces_source_witness :
  selectedPage Demo.one_page = Some 0 ∧
  cropper_toDataURL (js_get (pageImages Demo.one_page) 0) "x"
  = Some "crop:x:data:a" ∧
  cropperRef_current (step (Crop (H := Demo.collaborators) "x") Demo.one_page)
  = Some (Some "crop:x:data:a") ∧
  ¬ holds_raster
      (run [Rotate 90; Crop (H := Demo.collaborators) "y"; ZoomIn]
           (step (Crop (H := Demo.collaborators) "x") Demo.one_page))
      "data:a".
Proof.
  split; [reflexivity|]. split; [reflexivity|].
  destruct (handleCrop_replaces_source (H := Demo.collaborators) "x" Demo.one_page
              (step (Crop (H := Demo.collaborators) "x") Demo.one_page) 0 "crop:x:data:a"
              eq_refl eq_refl eq_refl)
    as (_ & _ & _ & Hmounted & _ & _ & Hnever).
  split; [exact Hmounted|].
  apply Hnever.
  - reflexivity.
  - intros [|q] Hq; [done|]. split; discriminate.
  - intros [url|] box'; discriminate.
  - repeat constructor.
Defined.

End Sessions.
(** * Further properties of the handlers *)

(** ** Reordering, continued *)

Lemma splice_insert_delete {A} (l : list A) (i : nat) (x : A) :
  l !! i = Some x → splice_insert i x (delete i l) = l.
Proof.
  intros Hi. unfold splice_insert. rewrite delete_take_drop.
  assert (Hlen : i < length l) by (apply lookup_lt_is_Some; eauto).
  rewrite take_app_length' by (rewrite length_take; lia).
  replace i with (length (take i l) + 0) at 2 by (rewrite length_take; lia).
  rewrite drop_app_add'; [|done]. rewrite drop_0.
  by apply take_drop_middle.
Qed.

Lemma setPages_pages (s : State) : setPages (pages s) s = s.
Proof. by destruct s. Qed.

(** X1. A move between two positions of the page list followed by the move
    back restores the state. *)
Theorem onDragEnd_move_back (s : State) (fromPosition toPosition : nat) :
  fromPosition < length (pages s) →
  toPosition < length (pages s) →
  onDragEnd {| source_index := toPosition; destination := Some fromPosition |}
    (onDragEnd {| source_index := fromPosition;
                  destination := Some toPosition |} s)
  = s.
Proof.
  intros Hsrc Hdst.
  destruct (lookup_lt_is_Some_2 _ _ Hsrc) as [entry Hentry].
  rewrite (onDragEnd_pages _ _ _ _ Hentry).
  assert (Hlen : toPosition ≤ length (delete fromPosition (pages s))).
  { rewrite length_delete by eauto. lia. }
  rewrite (onDragEnd_pages _ _ _ entry).
  2:{ simpl. by apply lookup_splice_insert_eq. }
  simpl. rewrite delete_splice_insert by done.
  rewrite (splice_insert_delete _ _ _ Hentry).
  by destruct s.
Qed.

Lemma onDragEnd_move_back_witness :
  2 < length (pages Demo.three_pages) ∧
  0 < length (pages Demo.three_pages) ∧
  onDragEnd {| source_index := 0; destination := Some 2 |}
    (onDragEnd {| source_index := 2; destination := Some 0 |} Demo.three_pages)
  = Demo.three_pages.
Proof.
  assert (H2 : 2 < length (pages Demo.three_pages)) by (simpl; lia).
  assert (H0 : 0 < length (pages Demo.three_pages)) by (simpl; lia).
  split; [exact H2|]. split; [exact H0|].
  exact (onDragEnd_move_back Demo.three_pages 2 0 H2 H0).
Defined.

(** X2. A drag whose source index is not a position of the page list
    removes nothing and inserts [undefined]: the list is one longer, the new
    entry sits at the destination (at the end when the destination is
    beyond it) and is no identifier, and the old entries are all still
    there in their order. *)
Theorem onDragEnd_source_outside_grows (s : State) (src dst : nat) :
  length (pages s) ≤ src →
  let moved := onDragEnd {| source_index := src; destination := Some dst |} s in
  length (pages moved) = S (length (pages s)) ∧
  pages moved !! (dst `min` length (pages s)) = Some None ∧
  delete (dst `min` length (pages s)) (pages moved) = pages s.
Proof.
  intros Hsrc moved. subst moved.
  rewrite (onDragEnd_source_outside _ _ _ Hsrc). simpl.
  assert (Heq : splice_insert dst None (pages s)
                = splice_insert (dst `min` length (pages s)) None (pages s)).
  { unfold splice_insert. destruct (decide (dst ≤ length (pages s))).
    - by rewrite Nat.min_l.
    - rewrite Nat.min_r by lia. by rewrite !take_ge, !drop_ge by lia. }
  rewrite Heq. split; [apply length_splice_insert|].
  split; [apply lookup_splice_insert_eq|apply delete_splice_insert]; lia.
Qed.

Lemma onDragEnd_source_outside_grows_witness :
  length (pages Demo.three_pages) ≤ 5 ∧
  pages (onDragEnd {| source_index := 5; destination := Some 0 |}
                   Demo.three_pages)
  !! (0 `min` length (pages Demo.three_pages)) = Some None.
Proof.
  assert (H5 : length (pages Demo.three_pages) ≤ 5) by (simpl; lia).
  split; [exact H5|].
  exact (proj1 (proj2 (onDragEnd_source_outside_grows Demo.three_pages 5 0 H5))).
Defined.

(** ** Rotation, continued *)

Lemma js_get_Some_lookup {A} (arr : list (option A)) (i : nat) (x : A) :
  js_get arr i = Some x → arr !! i = Some (Some x).
Proof.
  unfold js_get. destruct (arr !! i) as [[y|]|]; simpl; congruence.
Qed.

Lemma js_set_set_back {A} (arr : list (option A)) (i : nat) (x y : A) :
  js_get arr i = Some x → js_set (js_set arr i y) i x = arr.
Proof.
  intros Hget. apply js_get_Some_lookup in Hget.
  assert (Hlen : i < length arr) by (apply lookup_lt_is_Some; eauto).
  unfold js_set. destruct (decide (i < length arr)); [|done].
  rewrite decide_True by (by rewrite length_insert).
  rewrite list_insert_insert_eq. by apply list_insert_id.
Qed.

Lemma sin_cos_full_turns (x : R) (k : Z) :
  sin (x + 2 * IZR k * PI)%R = sin x ∧ cos (x + 2 * IZR k * PI)%R = cos x.
Proof.
  destruct (Z.le_ge_cases 0 k) as [Hk|Hk].
  - rewrite <- (Z2Nat.id k Hk), <- INR_IZR_INZ.
    split; [apply sin_period|apply cos_period].
  - assert (Hneg : IZR k = (- INR (Z.to_nat (- k)))%R).
    { rewrite INR_IZR_INZ, Z2Nat.id by lia. rewrite opp_IZR. ring. }
    rewrite Hneg. set (n := Z.to_nat (- k)).
    split.
    + rewrite <- (sin_period (x + 2 * - INR n * PI) n). f_equal. ring.
    + rewrite <- (cos_period (x + 2 * - INR n * PI) n). f_equal. ring.
Qed.

(** Angles that are congruent modulo 360 are the same rotation. *)
Lemma congruent_same_rotation (x y : Z) :
  (x mod 360 = y mod 360)%Z →
  sin (IZR x * (PI / 180)) = sin (IZR y * (PI / 180)) ∧
  cos (IZR x * (PI / 180)) = cos (IZR y * (PI / 180)).
Proof.
  intros Hxy.
  assert (Hk : ∃ k, x = (y + 360 * k)%Z).
  { exists (x / 360 - y / 360)%Z. Z.to_euclidean_division_equations. lia. }
  destruct Hk as [k ->].
  replace (IZR (y + 360 * k) * (PI / 180))%R
    with (IZR y * (PI / 180) + 2 * IZR k * PI)%R.
  - apply sin_cos_full_turns.
  - rewrite plus_IZR, mult_IZR. field.
Qed.

Lemma rotate_sequence_at (deltas : list Z) (s : State) (p : nat) (a : Z) :
  selectedPage s = Some p →
  js_get (rotationAngles s) p = Some (Num a) →
  (Z.abs a < 2 ^ 52)%Z →
  Forall (λ d, (Z.abs d < 2 ^ 52)%Z) deltas →
  ∃ a',
    js_get (rotationAngles (foldl (λ s d, rotateSelectedPage d s) s deltas)) p
    = Some (Num a') ∧
    (a' mod 360 = (a + foldr Z.add 0 deltas) mod 360)%Z.
Proof.
  intros Hp Ha Hbound Hdeltas. revert s a Hp Ha Hbound.
  induction Hdeltas as [|d deltas Hd _ IH]; intros s a Hp Ha Hbound; simpl.
  - exists a. split; [done|]. by rewrite Z.add_0_r.
  - destruct (rotateSelectedPage_at s d p a Hp Ha) as [Hp1 Ha1].
    { change (2 ^ 53)%Z with (2 * 2 ^ 52)%Z. lia. }
    destruct (IH _ _ Hp1 Ha1) as (a' & Hget & Hmod).
    { pose proof (rem_360_range (a + d)).
      change (2 ^ 52)%Z with 4503599627370496%Z. lia. }
    exists a'. split; [done|]. rewrite Hmod.
    Z.to_euclidean_division_equations. lia.
Qed.

Lemma rotate_sequence_other (deltas : list Z) (s : State) (p q : nat) :
  selectedPage s = Some p → q ≠ p →
  js_get (rotationAngles (foldl (λ s d, rotateSelectedPage d s) s deltas)) q
  = js_get (rotationAngles s) q.
Proof.
  revert s. induction deltas as [|d deltas IH]; intros s Hp Hq; simpl; [done|].
  rewrite IH; [by apply (rotateSelectedPage_other s d p q)| |done].
  by rewrite (rotateSelectedPage_selected _ _ _ Hp).
Qed.

(** X3. Rotations add up modulo 360 as long as the sums are exact.  With
    page [p] selected at the stored angle [a], rotating by the amounts of
    [deltas] one after the other, where [a] and every amount are below 2^52
    in absolute value (so that every sum the handler forms is below 2^53 and
    is not rounded), leaves at [p] an angle congruent to [a] plus their sum,
    which is the same rotation (same sine and cosine of its radians); no
    other page's angle changes. *)
Theorem rotateSelectedPage_sequence (deltas : list Z) (s : State) (p : nat)
    (a : Z) :
  selectedPage s = Some p →
  js_get (rotationAngles s) p = Some (Num a) →
  (Z.abs a < 2 ^ 52)%Z →
  Forall (λ d, (Z.abs d < 2 ^ 52)%Z) deltas →
  let s' := foldl (λ s d, rotateSelectedPage d s) s deltas in
  let total := (a + foldr Z.add 0 deltas)%Z in
  (∃ a',
     js_get (rotationAngles s') p = Some (Num a') ∧
     (a' mod 360 = total mod 360)%Z ∧
     sin (IZR a' * (PI / 180)) = sin (IZR total * (PI / 180)) ∧
     cos (IZR a' * (PI / 180)) = cos (IZR total * (PI / 180))) ∧
  (∀ q, q ≠ p → js_get (rotationAngles s') q = js_get (rotationAngles s) q).
Proof.
  intros Hp Ha Hbound Hdeltas s' total. subst s' total. split.
  - destruct (rotate_sequence_at deltas s p a Hp Ha Hbound Hdeltas)
      as (a' & Hget & Hmod).
    exists a'. split; [done|]. split; [done|].
    by apply congruent_same_rotation.
  - intros q Hq. by apply (rotate_sequence_other deltas s p q).
Qed.

Lemma rotateSelectedPage_sequence_witness :
  selectedPage Demo.one_page = Some 0 ∧
  js_get (rotationAngles Demo.one_page) 0 = Some (Num 0%Z) ∧
  (Z.abs 0 < 2 ^ 52)%Z ∧
  Forall (λ d, (Z.abs d < 2 ^ 52)%Z) [-90; -90; 450]%Z ∧
  ∃ a',
    js_get (rotationAngles
              (foldl (λ s d, rotateSelectedPage d s) Demo.one_page
                     [-90; -90; 450]%Z)) 0
    = Some (Num a') ∧
    (a' mod 360 = (0 + foldr Z.add 0 [-90; -90; 450]) mod 360)%Z.
Proof.
  assert (Hbound : (Z.abs 0 < 2 ^ 52)%Z) by reflexivity.
  assert (Hdeltas : Forall (λ d, (Z.abs d < 2 ^ 52)%Z) [-90; -90; 450]%Z)
    by (repeat constructor).
  split; [reflexivity|]. split; [reflexivity|].
  split; [exact Hbound|]. split; [exact Hdeltas|].
  destruct (rotateSelectedPage_sequence [-90; -90; 450]%Z Demo.one_page 0 0%Z
              eq_refl eq_refl Hbound Hdeltas) as [(a' & Hget & Hmod & _) _].
  exists a'. split; [exact Hget|exact Hmod].
Defined.

(** X4. "Rotate 90" followed by "Rotate -90" restores the state exactly
    when the first step does not wrap, that is when the stored angle is
    below 270; from 270 the pair leaves -90.  The same holds for "Rotate
    -90" followed by "Rotate 90" above -270, and from -270 the pair leaves
    90. *)
Theorem rotateSelectedPage_undo (s : State) (p : nat) (a : Z) :
  selectedPage s = Some p →
  js_get (rotationAngles s) p = Some (Num a) →
  ((-360 < a < 270)%Z →
   rotateSelectedPage (-90) (rotateSelectedPage 90 s) = s) ∧
  ((-270 < a < 360)%Z →
   rotateSelectedPage 90 (rotateSelectedPage (-90) s) = s) ∧
  (a = 270%Z →
   js_get (rotationAngles (rotateSelectedPage (-90) (rotateSelectedPage 90 s))) p
   = Some (Num (-90)%Z)) ∧
  (a = (-270)%Z →
   js_get (rotationAngles (rotateSelectedPage 90 (rotateSelectedPage (-90) s))) p
   = Some (Num 90%Z)).
Proof.
  intros Hp Ha.
  assert (Hback : ∀ d,
             (-360 < a < 360)%Z → (d = 90 ∨ d = -90)%Z →
             (Z.rem (Z.rem (a + d) 360 - d) 360 = a)%Z →
             rotateSelectedPage (- d) (rotateSelectedPage d s) = s).
  { intros d Hrange Hquarter Hd.
    destruct (rotateSelectedPage_at s d p a Hp Ha) as [Hp1 Ha1];
      [by apply quarter_sum_exact|].
    rewrite (rotateSelectedPage_selected _ _ _ Hp1), Ha1.
    rewrite (rotateSelectedPage_selected _ _ _ Hp), Ha.
    rewrite !js_add_rem360_exact
      by (apply quarter_sum_exact; [first [apply rem_360_range|done]|lia]).
    simpl.
    replace (Z.rem (a + d) 360 + - d)%Z with (Z.rem (a + d) 360 - d)%Z by lia.
    rewrite Hd, (js_set_set_back _ _ _ _ Ha). by destruct s. }
  repeat split.
  - intros Hrange. apply (Hback 90%Z); [lia|by left|].
    Z.to_euclidean_division_equations. lia.
  - intros Hrange. apply (Hback (-90)%Z); [lia|by right|].
    Z.to_euclidean_division_equations. lia.
  - intros ->.
    destruct (rotateSelectedPage_at s 90 p _ Hp Ha) as [Hp1 Ha1]; [done|].
    by destruct (rotateSelectedPage_at _ (-90) p _ Hp1 Ha1) as [_ ->].
  - intros ->.
    destruct (rotateSelectedPage_at s (-90) p _ Hp Ha) as [Hp1 Ha1]; [done|].
    by destruct (rotateSelectedPage_at _ 90 p _ Hp1 Ha1) as [_ ->].
Qed.

Lemma rotateSelectedPage_undo_witness :
  selectedPage Demo.three_pages = Some 1 ∧
  js_get (rotationAngles Demo.three_pages) 1 = Some (Num 0%Z) ∧
  (-360 < 0 < 270)%Z ∧
  rotateSelectedPage (-90) (rotateSelectedPage 90 Demo.three_pages)
  = Demo.three_pages.
Proof.
  assert (Hrange : (-360 < 0 < 270)%Z) by lia.
  split; [reflexivity|]. split; [reflexivity|]. split; [exact Hrange|].
  exact (proj1 (rotateSelectedPage_undo Demo.three_pages 1 0%Z eq_refl eq_refl)
               Hrange).
Defined.

Lemma rotateSelectedPage_nan (s : State) (d : Z) (p : nat) :
  selectedPage s = Some p →
  (∀ a, js_get (rotationAngles s) p ≠ Some (Num a)) →
  selectedPage (rotateSelectedPage d s) = Some p ∧
  js_get (rotationAngles (rotateSelectedPage d s)) p = Some NaN ∧
  length (rotationAngles (rotateSelectedPage d s))
  = length (rotationAngles s) `max` S p.
Proof.
  intros Hp Hnan. rewrite (rotateSelectedPage_selected _ _ _ Hp). simpl.
  rewrite js_get_set_eq, length_js_set. split; [done|]. split; [|done].
  destruct (js_get (rotationAngles s) p) as [[|a]|] eqn:Hold; try done.
  by destruct (Hnan a).
Qed.

(** X5. [NaN] is absorbing.  When the selected index has no number for its
    angle (a hole, or an index outside the array, as a selection left over
    from a longer document), the first rotation writes [NaN] there, growing
    the array up to that index if needed, and every later rotation leaves
    [NaN]: no sequence of rotations gives that page an angle again. *)
Theorem rotateSelectedPage_not_a_number (s : State) (p : nat) (d : Z)
    (deltas : list Z) :
  selectedPage s = Some p →
  (∀ a, js_get (rotationAngles s) p ≠ Some (Num a)) →
  let s' := foldl (λ s d, rotateSelectedPage d s) s (d :: deltas) in
  js_get (rotationAngles s') p = Some NaN ∧
  length (rotationAngles s') = length (rotationAngles s) `max` S p.
Proof.
  intros Hp Hnan s'. subst s'. simpl.
  destruct (rotateSelectedPage_nan s d p Hp Hnan) as (Hp1 & Hnan1 & Hlen1).
  revert Hp1 Hnan1 Hlen1. generalize (rotateSelectedPage d s) as s1.
  induction deltas as [|d' deltas IH]; intros s1 Hp1 Hnan1 Hlen1; simpl; [done|].
  assert (Hnot : ∀ a, js_get (rotationAngles s1) p ≠ Some (Num a))
    by (intros a; by rewrite Hnan1).
  destruct (rotateSelectedPage_nan s1 d' p Hp1 Hnot) as (Hp2 & Hnan2 & Hlen2).
  apply IH; [done|done|]. rewrite Hlen2, Hlen1. lia.
Qed.

Lemma rotateSelectedPage_not_a_number_witness :
  selectedPage (setSelectedPage 3 Demo.one_page) = Some 3 ∧
  (∀ a, js_get (rotationAngles (setSelectedPage 3 Demo.one_page)) 3
        ≠ Some (Num a)) ∧
  rotationAngles
    (foldl (λ s d, rotateSelectedPage d s) (setSelectedPage 3 Demo.one_page)
           [90; -90]%Z)
  !! 3 = Some (Some NaN).
Proof.
  assert (Hnan : ∀ a, js_get (rotationAngles (setSelectedPage 3 Demo.one_page)) 3
                      ≠ Some (Num a)) by (intros a; discriminate).
  split; [reflexivity|]. split; [exact Hnan|].
  apply js_get_Some_lookup.
  exact (proj1 (rotateSelectedPage_not_a_number (setSelectedPage 3 Demo.one_page)
                  3 90%Z [(-90)%Z] eq_refl Hnan)).
Defined.

(** X6. Reordering does not interfere with editing: the selection is an
    identifier, not a position, so a move keeps it, and a move commutes with
    a rotation and with a crop. *)
Theorem onDragEnd_commutes `{Collaborators} (result : DropResult) (s : State) :
  selectedPage (onDragEnd result s) = selectedPage s ∧
  (∀ angle,
     onDragEnd result (rotateSelectedPage angle s)
     = rotateSelectedPage angle (onDragEnd result s)) ∧
  (∀ box,
     onDragEnd result (step (Crop box) s)
     = step (Crop box) (onDragEnd result s)).
Proof.
  split; [by rewrite onDragEnd_frame|]. split.
  - intros angle. unfold onDragEnd, rotateSelectedPage.
    destruct (selectedPage s) as [p|] eqn:Hp;
      destruct (destination result) as [dst|]; simpl; rewrite ?Hp; try done;
      destruct (splice_delete1 _ _); simpl; by rewrite ?Hp.
  - intros box. unfold onDragEnd, step, handleCrop, cropperRef_current.
    destruct (selectedPage s) as [p|] eqn:Hp;
      destruct (destination result) as [dst|]; simpl; rewrite ?Hp; simpl;
      try done; by destruct (cropper_toDataURL _ box).
Qed.

(** ** Cropping, continued *)

(** X7. A crop that succeeds leaves both arrays at least as long as the
    selected index requires: each has the length it had, or [p + 1] if that
    is larger, and the slots between the old end and [p] are holes.  With
    [p] inside both arrays no length changes. *)
Theorem handleCrop_lengths `{Collaborators} (box : CropBox) (s s' : State)
    (p : nat) :
  selectedPage s = Some p →
  handleCrop box s = Some s' →
  length (pageImages s') = length (pageImages s) `max` S p ∧
  length (croppedImages s') = length (croppedImages s) `max` S p ∧
  (∀ q, length (pageImages s) ≤ q < p → js_get (pageImages s') q = None) ∧
  (∀ q, length (croppedImages s) ≤ q < p → js_get (croppedImages s') q = None).
Proof.
  intros Hp Hcrop. rewrite (handleCrop_selected _ _ _ Hp) in Hcrop.
  destruct (cropper_toDataURL _ box) as [url|]; simpl in Hcrop; [|done].
  injection Hcrop as <-. simpl. rewrite !length_js_set.
  split; [done|]. split; [done|].
  split; intros q [Hq1 Hq2]; rewrite js_get_set_ne by lia;
    by apply js_get_ge.
Qed.

Lemma handleCrop_lengths_witness :
  selectedPage
    (setSelectedPage 2
       (setPageImages [Some "data:a"; None; Some "data:c"] Demo.one_page))
  = Some 2 ∧
  ∃ s',
    handleCrop (H := Demo.collaborators) "x"
      (setSelectedPage 2
         (setPageImages [Some "data:a"; None; Some "data:c"] Demo.one_page))
    = Some s' ∧
    length (croppedImages s') = 3.
Proof.
  split; [reflexivity|].
  eexists. split; [reflexivity|].
  exact (proj1 (proj2 (handleCrop_lengths (H := Demo.collaborators) "x"
                         (setSelectedPage 2
                            (setPageImages [Some "data:a"; None; Some "data:c"]
                                           Demo.one_page))
                         _ 2 eq_refl eq_refl))).
Defined.

(** ** Export, continued *)

Section ExportComposition.
Context `{Collaborators}.

(** The page exported for an identifier depends on the rasters, the
    overrides and the angles only. *)
Lemma exported_page_ext (s1 s2 : State) (pageIndex : option nat) :
  pageImages s1 = pageImages s2 →
  croppedImages s1 = croppedImages s2 →
  rotationAngles s1 = rotationAngles s2 →
  exported_page s1 pageIndex = exported_page s2 pageIndex.
Proof. unfold exported_page. by intros -> -> ->. Qed.

Lemma handleRearrange_ext (s1 s2 : State) :
  is_Some (pdfDoc s1) ↔ is_Some (pdfDoc s2) →
  pages s1 = pages s2 →
  pageImages s1 = pageImages s2 →
  croppedImages s1 = croppedImages s2 →
  rotationAngles s1 = rotationAngles s2 →
  handleRearrange s1 = handleRearrange s2.
Proof.
  intros Hdoc Hpages Himages Hcropped Hangles. unfold handleRearrange.
  rewrite !handleRearrange_loop_pages, Hpages.
  rewrite (mapM_ext _ (exported_page s2)) by (intros; by apply exported_page_ext).
  destruct (pdfDoc s1) as [doc1|], (pdfDoc s2) as [doc2|]; try done.
  - destruct Hdoc as [[? ?] _]; [by eexists|done].
  - destruct Hdoc as [_ [? ?]]; [by eexists|done].
Qed.

(** X8. The exported document does not depend on the zoom level or on the
    selection: selecting a page and zooming in or out leave the outcome of
    an export as it was. *)
Theorem handleRearrange_ignores_view (s : State) :
  (∀ pageIndex, handleRearrange (setSelectedPage pageIndex s) = handleRearrange s) ∧
  handleRearrange (zoomIn s) = handleRearrange s ∧
  handleRearrange (zoomOut s) = handleRearrange s.
Proof. repeat split; intros; by apply handleRearrange_ext. Qed.

End ExportComposition.

(** ** Loading, continued *)

Lemma js_get_fmap_Some {A} (l : list A) (i : nat) :
  js_get (Some <$> l) i = l !! i.
Proof. unfold js_get. rewrite list_lookup_fmap. by destruct (l !! i). Qed.

Lemma js_get_replicate_lt {A} (n i : nat) (x : A) :
  i < n → js_get (replicate n (Some x)) i = Some x.
Proof. intros Hi. unfold js_get. by rewrite lookup_replicate_2. Qed.

Section LoadingMore.
Context `{Collaborators}.

(** X11. A load that parses and renders logs nothing and leaves a session
    of exactly [n] pages, [n] the page count pdf-lib reports: position [i]
    of the page list holds the identifier [i], its angle is 0, its crop
    override is null and its raster is what pdfjs rendered for page number
    [i + 1].  The selection and the zoom level are those of the state
    before. *)
Theorem handleFileUpload_success (s : State) (file : File)
    (arrayBuffer : ArrayBuffer) (doc : PDFDocument) (pdf : PDFJSDocument)
    (urls : list string) :
  file_arrayBuffer file = Some arrayBuffer →
  PDFDocument_load arrayBuffer = Some doc →
  pdfjs_getDocument arrayBuffer = Some pdf →
  mapM (pdfjs_renderPage pdf) (seq 1 (getPageCount doc)) = Some urls →
  let s' := (handleFileUpload (Some file) s).1 in
  let n := getPageCount doc in
  (handleFileUpload (Some file) s).2 = [] ∧
  pdfDoc s' = Some doc ∧
  length (pages s') = n ∧ length (pageImages s') = n ∧
  length (rotationAngles s') = n ∧ length (croppedImages s') = n ∧
  (∀ i, i < n →
        pages s' !! i = Some (Some i) ∧
        js_get (rotationAngles s') i = Some (Num 0%Z) ∧
        js_get (croppedImages s') i = Some null ∧
        ∃ url, js_get (pageImages s') i = Some url ∧
               pdfjs_renderPage pdf (S i) = Some url) ∧
  selectedPage s' = selectedPage s ∧
  zoomLevel s' = zoomLevel s.
Proof.
  intros Hread Hload Hpdf Hurls s' n. subst s' n.
  rewrite (handleFileUpload_loaded _ _ _ _ _ _ Hread Hload Hpdf Hurls). simpl.
  pose proof (length_mapM _ _ _ Hurls) as Hlen. rewrite length_seq in Hlen.
  rewrite !length_fmap, !length_replicate, length_seq, <- Hlen.
  repeat split; try done.
  - rewrite list_lookup_fmap, lookup_seq_lt by done. done.
  - by apply js_get_replicate_lt.
  - by apply js_get_replicate_lt.
  - apply mapM_Some in Hurls.
    destruct (Forall2_lookup_l _ _ _ i (1 + i) Hurls) as (url & Hurl & Hrender).
    { by apply lookup_seq_lt. }
    exists url. by rewrite js_get_fmap_Some.
Qed.

(** X12. A file that pdf-lib parses and pdfjs fails on (opening it, or
    rendering any one of its pages) is only half loaded: "Error rendering
    PDF pages:" is logged, the page list, the angles and the crop overrides
    are those of the new document, and the raster cache is the old one; so
    every identifier beyond the old cache is listed without a raster. *)
Theorem handleFileUpload_half_loaded (s : State) (file : File)
    (arrayBuffer : ArrayBuffer) (doc : PDFDocument) :
  file_arrayBuffer file = Some arrayBuffer →
  PDFDocument_load arrayBuffer = Some doc →
  (pdf ← pdfjs_getDocument arrayBuffer;
   mapM (pdfjs_renderPage pdf) (seq 1 (getPageCount doc))) = None →
  let s' := (handleFileUpload (Some file) s).1 in
  (handleFileUpload (Some file) s).2
  = [ConsoleError "Error rendering PDF pages:"] ∧
  pdfDoc s' = Some doc ∧
  pages s' = Some <$> seq 0 (getPageCount doc) ∧
  rotationAngles s' = replicate (getPageCount doc) (Some (Num 0%Z)) ∧
  croppedImages s' = replicate (getPageCount doc) (Some null) ∧
  pageImages s' = pageImages s ∧
  selectedPage s' = selectedPage s ∧
  (∀ i, length (pageImages s) ≤ i < getPageCount doc →
        Some i ∈ pages s' ∧ js_get (pageImages s') i = None).
Proof.
  intros Hread Hload Hfail s'. subst s'.
  rewrite (handleFileUpload_not_rendered _ _ _ _ Hread Hload Hfail). simpl.
  repeat split; try done.
  - apply list_elem_of_fmap_2, elem_of_seq. lia.
  - apply js_get_ge. lia.
Qed.

(** X18. Rendering is all or nothing for the raster cache: either every
    page from 1 to [pageCount] was rendered, nothing is logged and the cache
    is exactly these [pageCount] rasters in page order, without a hole; or
    pdfjs failed somewhere (on the document or on any one page), the error
    is logged and the state, with the old cache, is returned untouched.  The
    rasters rendered before a failing page are dropped. *)
Theorem renderPdfPages_all_or_nothing (arrayBuffer : ArrayBuffer)
    (pageCount : nat) (s : State) :
  (∃ pdf urls,
     pdfjs_getDocument arrayBuffer = Some pdf ∧
     length urls = pageCount ∧
     (∀ i url, urls !! i = Some url → pdfjs_renderPage pdf (S i) = Some url) ∧
     renderPdfPages arrayBuffer pageCount s
     = (setPageImages (Some <$> urls) s, [])) ∨
  ((pdfjs_getDocument arrayBuffer = None ∨
    ∃ pdf i, pdfjs_getDocument arrayBuffer = Some pdf ∧
             1 ≤ i ≤ pageCount ∧ pdfjs_renderPage pdf i = None) ∧
   renderPdfPages arrayBuffer pageCount s
   = (s, [ConsoleError "Error rendering PDF pages:"])).
Proof.
  destruct (pdfjs_getDocument arrayBuffer) as [pdf|] eqn:Hpdf.
  2:{ right. split; [by left|]. apply renderPdfPages_failed. by rewrite Hpdf. }
  destruct (mapM (pdfjs_renderPage pdf) (seq 1 pageCount)) as [urls|] eqn:Hurls.
  - left. exists pdf, urls. split; [done|].
    pose proof (length_mapM _ _ _ Hurls) as Hlen. rewrite length_seq in Hlen.
    split; [done|]. split; [|by apply (renderPdfPages_rendered _ _ _ pdf)].
    intros i url Hi. apply mapM_Some in Hurls.
    destruct (Forall2_lookup_r _ _ _ i url Hurls Hi) as (n & Hn & Hrender).
    apply lookup_seq in Hn as [-> _]. exact Hrender.
  - right. split; [|apply renderPdfPages_failed; by rewrite Hpdf].
    right. apply mapM_None, Exists_exists in Hurls as (i & Hi & Hnone).
    apply elem_of_seq in Hi. exists pdf, i. split; [done|]. split; [lia|done].
Qed.

End LoadingMore.

Section LoadingWitnesses.
#[local] Existing Instance Demo.collaborators.

Lemma handleFileUpload_success_witness :
  Demo.load "%PDFab" = Some {| getPageCount := 2 |} ∧
  Demo.getDocument "%PDFab" = Some "%PDFab" ∧
  mapM (Demo.renderPage "%PDFab") (seq 1 2) = Some ["data:a"; "data:b"] ∧
  pages (handleFileUpload (Some "%PDFab") Demo.three_pages).1 !! 1
  = Some (Some 1) ∧
  selectedPage (handleFileUpload (Some "%PDFab") Demo.three_pages).1
  = selectedPage Demo.three_pages.
Proof.
  split; [reflexivity|]. split; [reflexivity|]. split; [reflexivity|].
  destruct (handleFileUpload_success (H := Demo.collaborators)
              Demo.three_pages "%PDFab" "%PDFab" {| getPageCount := 2 |}
              "%PDFab" ["data:a"; "data:b"] eq_refl eq_refl eq_refl eq_refl)
    as (_ & _ & _ & _ & _ & _ & Hslots & Hsel & _).
  split; [|exact Hsel].
  exact (proj1 (Hslots 1 ltac:(simpl; lia))).
Defined.

Lemma handleFileUpload_half_loaded_witness :
  Demo.load "%PDFa!c" = Some {| getPageCount := 3 |} ∧
  (pdf ← Demo.getDocument "%PDFa!c"; mapM (Demo.renderPage pdf) (seq 1 3))
  = None ∧
  pageImages (handleFileUpload (Some "%PDFa!c") Demo.one_page).1
  = pageImages Demo.one_page ∧
  Some 2 ∈ pages (handleFileUpload (Some "%PDFa!c") Demo.one_page).1.
Proof.
  split; [reflexivity|]. split; [reflexivity|].
  destruct (handleFileUpload_half_loaded (H := Demo.collaborators)
              Demo.one_page "%PDFa!c" "%PDFa!c" {| getPageCount := 3 |}
              eq_refl eq_refl eq_refl)
    as (_ & _ & _ & _ & _ & Himages & _ & Hmissing).
  split; [exact Himages|].
  exact (proj1 (Hmissing 2 ltac:(simpl; lia))).
Defined.

Lemma renderPdfPages_all_or_nothing_witness :
  renderPdfPages "%PDFa!c" 3 Demo.one_page
  = (Demo.one_page, [ConsoleError "Error rendering PDF pages:"]).
Proof.
  destruct (renderPdfPages_all_or_nothing (H := Demo.collaborators)
              "%PDFa!c" 3 Demo.one_page)
    as [(pdf & urls & _ & _ & _ & Hdone)|[_ Hfailed]].
  - discriminate Hdone.
  - exact Hfailed.
Defined.

End LoadingWitnesses.

(** ** Reachable states, continued *)

Lemma onDragEnd_Permutation (result : DropResult) (s : State) :
  source_index result < length (pages s) →
  pages (onDragEnd result s) ≡ₚ pages s.
Proof.
  intros Hsrc. destruct result as [src [dst|]]; [|done].
  destruct (lookup_lt_is_Some_2 _ _ Hsrc) as [entry Hentry].
  rewrite (onDragEnd_pages _ _ _ _ Hentry). simpl.
  rewrite splice_insert_Permutation. symmetry. by apply delete_Permutation.
Qed.

Section ReachableMore.
Context `{Collaborators}.

(** The three ways a load changes the state, and how the page list and
    the angles fit afterwards. *)
Lemma fits_document_uncounted (s : State) :
  fits_document s → fits_document (setPdfDoc uncounted s).
Proof. intros (n & Hperm & Hangles & _). by exists n. Qed.

Lemma fits_document_loaded (s : State) (doc : PDFDocument) (pageCount : nat) :
  js_getPageCount doc = Some pageCount →
  fits_document
    (setCroppedImages (replicate pageCount (Some null))
       (setRotationAngles (replicate pageCount (Some (Num 0%Z)))
          (setPages (Some <$> seq 0 pageCount) (setPdfDoc doc s)))).
Proof.
  intros [= <-]. exists (getPageCount doc). simpl.
  split; [done|]. split; [|done].
  intros i Hi. exists 0%Z. by apply js_get_replicate_lt.
Qed.

Lemma fits_document_setPageImages (images : list (option string)) (s : State) :
  pdfDoc s ≠ None → fits_document s → fits_document (setPageImages images s).
Proof.
  intros Hdoc (n & Hperm & Hangles & Hfits). exists n. simpl.
  split; [done|]. split; [done|]. by destruct (pdfDoc s).
Qed.

Lemma handleFileUpload_until_render_fits (event : option File) (s : State) :
  fits_document s →
  fits_document (handleFileUpload_until_render event s).1.1 ∧
  (pdfDoc (handleFileUpload_until_render event s).1.1 = None →
   pdfDoc s = None ∧ (handleFileUpload_until_render event s).2 = None).
Proof.
  intros Hs. unfold handleFileUpload_until_render.
  destruct event as [file|]; [|done].
  destruct (_ ≫= _) as [[arrayBuffer doc]|]; [|done].
  destruct (js_getPageCount doc) as [pageCount|] eqn:Hcount.
  - split; [|done]. destruct doc as [doc|]; [|done].
    by apply fits_document_loaded.
  - split; [|done]. destruct doc as [doc|]; [done|].
    by apply fits_document_uncounted.
Qed.

Lemma handleFileUpload_fits (event : option File) (s : State) :
  fits_document s →
  fits_document (handleFileUpload event s).1 ∧
  (pdfDoc (handleFileUpload event s).1 = None → pdfDoc s = None).
Proof.
  intros Hs. unfold handleFileUpload.
  destruct event as [file|]; [|done].
  destruct (_ ≫= _) as [[arrayBuffer doc]|]; [|done].
  destruct (js_getPageCount doc) as [pageCount|] eqn:Hcount.
  - rewrite renderPdfPages_frame. split; [|done].
    apply fits_document_setPageImages; [done|].
    destruct doc as [doc|]; [|done]. by apply fits_document_loaded.
  - split; [|done]. destruct doc as [doc|]; [done|].
    by apply fits_document_uncounted.
Qed.

Lemma step_fits_document (a : Action) (s : State) :
  enabled s a → quarter_turns s → fits_document s → fits_document (step a s).
Proof.
  intros Hen Hquarter Hs.
  destruct a as [event|event|arrayBuffer pageCount| |result|pageIndex|angle|box| |];
    unfold step; try done.
  - by apply handleFileUpload_fits.
  - by apply handleFileUpload_until_render_fits.
  - destruct Hen as [Hsrc _]. destruct Hs as (n & Hperm & Hangles & Hfits).
    rewrite onDragEnd_frame. exists n. simpl.
    split; [by rewrite onDragEnd_Permutation|]. split; [done|].
    destruct (pdfDoc s) as [doc|]; [done|].
    destruct Hfits as [-> _]. apply Permutation_nil_r in Hperm.
    rewrite Hperm in Hsrc. simpl in Hsrc. lia.
  - destruct Hs as (n & Hperm & Hangles & Hfits). exists n. simpl in *.
    split; [done|]. split; [done|].
    destruct (pdfDoc s) as [doc|]; [done|].
    destruct Hfits as [-> _]. apply Permutation_nil_r in Hperm.
    rewrite Hperm in Hen. by apply not_elem_of_nil in Hen.
  - destruct Hen as [Hsel Hangle].
    destruct (selectedPage s) as [p|] eqn:Hp; [|done].
    rewrite (rotateSelectedPage_selected _ _ _ Hp).
    destruct Hs as (n & Hperm & Hangles & Hfits). exists n. simpl.
    split; [done|]. split.
    + intros i Hi. destruct (Hangles i Hi) as [a Ha].
      destruct (decide (i = p)) as [->|Hne].
      * rewrite js_get_set_eq, Ha.
        rewrite js_add_rem360_exact; [eauto|].
        apply quarter_sum_exact; [|done]. by apply (Hquarter p a).
      * rewrite js_get_set_ne by done. eauto.
    + destruct (pdfDoc s) as [doc|]; [done|].
      destruct Hfits as (_ & _ & Hnone & _). by rewrite Hp in Hnone.
  - simpl in Hen.
    destruct (handleCrop box s) as [s'|] eqn:Hcrop; simpl; [|done].
    rewrite (handleCrop_frame _ _ _ Hcrop).
    destruct Hs as (n & Hperm & Hangles & Hfits). exists n. simpl.
    split; [done|]. split; [done|].
    destruct (pdfDoc s) as [doc|]; [done|].
    by destruct Hfits as (_ & _ & ? & _).
Qed.

(** No rendering is running while there is no document: a rendering is
    started after [setPdfDoc], and no handler removes the document. *)
Lemma step_pdfDoc_None (a : Action) (s : State) :
  fits_document s →
  pdfDoc (step a s) = None →
  pdfDoc s = None ∧ rendering_started a s = [].
Proof.
  intros Hs.
  destruct a as [event|event|arrayBuffer pageCount| |result|pageIndex|angle|box| |];
    unfold step, rendering_started; try done.
  - intros Hdoc. split; [|done]. by eapply handleFileUpload_fits.
  - intros Hdoc.
    destruct (handleFileUpload_until_render_fits event s Hs) as [_ Hnone].
    destruct (Hnone Hdoc) as [? ->]. done.
  - by rewrite renderPdfPages_frame.
  - by rewrite onDragEnd_frame.
  - unfold rotateSelectedPage. by destruct (selectedPage s).
  - destruct (handleCrop box s) as [s'|] eqn:Hcrop; simpl; [|done].
    by rewrite (handleCrop_frame _ _ _ Hcrop).
Qed.

Lemma reachable_rendering_fits_document (rendering : list (ArrayBuffer * nat))
    (s : State) :
  reachable_rendering rendering s →
  fits_document s ∧ (pdfDoc s = None → rendering = []).
Proof.
  induction 1 as [|rendering s a Hs [IHfits IHnone] Hen
                  |rendering1 arrayBuffer pageCount rendering2 s Hs
                     [IHfits IHnone]].
  - split; [|done]. exists 0. simpl.
    split; [done|]. split; [intros i Hi; lia|done].
  - split.
    + apply step_fits_document; [done| |done].
      by eapply reachable_rendering_quarter_turns.
    + intros Hdoc.
      destruct (step_pdfDoc_None a s IHfits Hdoc) as [Hdoc' ->].
      by apply IHnone.
  - rewrite step_RenderSettles_frame.
    assert (Hdoc : pdfDoc s ≠ None).
    { intros Hdoc. by destruct rendering1; discriminate (IHnone Hdoc). }
    split; [by apply fits_document_setPageImages|done].
Qed.

Lemma reachable_fits_document (s : State) : reachable s → fits_document s.
Proof. intros [rendering Hs]. by eapply reachable_rendering_fits_document. Qed.

(** X14. In every reachable state the page list fits the document: without
    a document every array is empty and nothing is selected; with a document
    of [n] pages the page list is a permutation of the identifiers
    [0 .. n - 1], so it has length [n], lists no identifier twice and lists
    nothing else. *)
Theorem reachable_page_list (s : State) :
  reachable s →
  (pdfDoc s = None →
   pages s = [] ∧ pageImages s = [] ∧ rotationAngles s = [] ∧
   croppedImages s = [] ∧ selectedPage s = None) ∧
  (∀ doc : PDFDocument,
     pdfDoc s = Some doc →
     pages s ≡ₚ Some <$> seq 0 (getPageCount doc) ∧
     length (pages s) = getPageCount doc ∧
     NoDup (pages s) ∧
     ∀ pageIndex,
       pageIndex ∈ pages s ↔ ∃ i, pageIndex = Some i ∧ i < getPageCount doc).
Proof.
  intros Hreach. apply reachable_fits_document in Hreach.
  destruct Hreach as (n & Hperm & _ & Hfits). split.
  - intros Hdoc. rewrite Hdoc in Hfits.
    destruct Hfits as (-> & ? & ? & ? & ?).
    apply Permutation_nil_r in Hperm. done.
  - intros doc Hdoc. rewrite Hdoc in Hfits. subst n.
    split; [done|]. rewrite Hperm. split; [|split].
    + by rewrite length_fmap, length_seq.
    + apply NoDup_fmap_2; [apply _|apply NoDup_seq].
    + intros pageIndex. rewrite Hperm, list_elem_of_fmap.
      split; intros (i & -> & Hi); exists i; split; try done.
      * apply elem_of_seq in Hi. lia.
      * apply elem_of_seq. lia.
Qed.

(** X15. In every reachable state each entry of the page list is an
    identifier whose stored angle is a number, a multiple of 90 strictly
    between -360 and 360: the rotation an export draws for a listed page is
    never [NaN]. *)
Theorem reachable_listed_angles (s : State) (pageIndex : option nat) :
  reachable s →
  pageIndex ∈ pages s →
  ∃ a,
    js_get_key (rotationAngles s) pageIndex = Some (Num a) ∧
    quarter_turn a ∧
    js_mul_pi_180 (js_get_key (rotationAngles s) pageIndex)
    = Num (IZR a * PI / 180)%R.
Proof.
  intros Hreach Hin.
  destruct (reachable_fits_document s Hreach) as (n & Hperm & Hangles & _).
  rewrite Hperm in Hin.
  apply list_elem_of_fmap in Hin as (i & -> & Hi%elem_of_seq).
  destruct (Hangles i) as [a Ha]; [lia|].
  exists a. simpl. split; [done|]. split.
  - by apply (reachable_quarter_turns s Hreach i).
  - rewrite Ha. apply js_mul_pi_180_num.
Qed.

Lemma step_selectedPage (a : Action) (s : State) :
  selectedPage (step a s)
  = match a with
    | SelectPage pageIndex => Some pageIndex
    | _ => selectedPage s
    end.
Proof.
  destruct a as [event|event|arrayBuffer pageCount| |result|pageIndex|angle|box| |];
    unfold step; try done.
  - apply handleFileUpload_selectedPage.
  - apply handleFileUpload_until_render_selectedPage.
  - by rewrite renderPdfPages_frame.
  - by rewrite onDragEnd_frame.
  - unfold rotateSelectedPage.
    by destruct (selectedPage s) as [p|] eqn:Hp; simpl; rewrite ?Hp.
  - destruct (handleCrop box s) as [s'|] eqn:Hcrop; simpl; [|done].
    by rewrite (handleCrop_frame _ _ _ Hcrop).
Qed.

(** X17. The selection is never cleared.  Only a click on an entry changes
    the selection, and it sets it; so once a page is selected, a page stays
    selected (and the cropper stays mounted) whatever is done afterwards: a
    load, a failed load, a move, a rotation, a crop, a zoom or an export. *)
Theorem run_keeps_selection (actions : list Action) (s : State) :
  is_Some (selectedPage s) →
  is_Some (selectedPage (run actions s)) ∧
  is_Some (cropperRef_current (run actions s)) ∧
  (Forall (λ a, ∀ pageIndex, a ≠ SelectPage pageIndex) actions →
   selectedPage (run actions s) = selectedPage s).
Proof.
  intros Hsel.
  assert (Hkeeps : is_Some (selectedPage (run actions s))).
  { revert s Hsel. induction actions as [|a actions IH]; intros s Hsel; [done|].
    unfold run in *. simpl. apply IH. rewrite step_selectedPage.
    by destruct a. }
  split; [done|]. split.
  - unfold cropperRef_current. destruct Hkeeps as [p ->]. by eexists.
  - clear Hkeeps Hsel. revert s.
    induction actions as [|a actions IH]; intros s Hnone; [done|].
    apply Forall_cons in Hnone as [Ha Hnone].
    unfold run in *. simpl. rewrite IH by done. rewrite step_selectedPage.
    destruct a; try done. by destruct (Ha pageIndex).
Qed.

End ReachableMore.

Section ReachableWitnesses.
#[local] Existing Instance Demo.collaborators.

Lemma reachable_page_list_witness :
  reachable Demo.turned_back ∧
  pdfDoc Demo.turned_back = Some {| getPageCount := 1 |} ∧
  length (pages Demo.turned_back) = 1.
Proof.
  split; [exact reachable_turned_back|]. split; [reflexivity|].
  destruct (reachable_page_list Demo.turned_back reachable_turned_back)
    as [_ Hdoc].
  exact (proj1 (proj2 (Hdoc {| getPageCount := 1 |} eq_refl))).
Defined.

Lemma reachable_listed_angles_witness :
  reachable Demo.turned_back ∧
  Some 0 ∈ pages Demo.turned_back ∧
  ∃ a, js_get_key (rotationAngles Demo.turned_back) (Some 0) = Some (Num a) ∧
       quarter_turn a.
Proof.
  assert (Hin : Some 0 ∈ pages Demo.turned_back)
    by (apply (list_elem_of_lookup_2 _ 0); reflexivity).
  split; [exact reachable_turned_back|]. split; [exact Hin|].
  destruct (reachable_listed_angles Demo.turned_back (Some 0)
              reachable_turned_back Hin) as (a & Ha & Hquarter & _).
  exists a. split; [exact Ha|exact Hquarter].
Defined.

Lemma run_keeps_selection_witness :
  is_Some (selectedPage Demo.three_pages) ∧
  is_Some (selectedPage
             (run [FileUpload (Some "%PDFz"); FileUpload (Some "junk"); ZoomOut]
                  Demo.three_pages)).
Proof.
  assert (Hsel : is_Some (selectedPage Demo.three_pages)) by (by eexists).
  split; [exact Hsel|].
  exact (proj1 (run_keeps_selection
                  [FileUpload (Some "%PDFz"); FileUpload (Some "junk"); ZoomOut]
                  Demo.three_pages Hsel)).
Defined.

End ReachableWitnesses.
